(** * python-femm: the command channel of [wrapper.py]

  A shallow embedding of [src/wrapper.py]: the three mode tables, the
  [FEMMSession] class (response decoding, argument encoding, path
  normalisation, mode bookkeeping) and the polyline helpers of
  [PreprocessorAPI], followed by the properties proved about them.

  Everything the module obtains from outside the repository is collected
  in the [Host] class: the COM automation object behind
  [win32com.client.Dispatch('femm.ActiveFEMM')], Python's builtin [eval],
  the text form of a Python float and the numpy computation of a rotated
  copy.  [PyFloat] gives the text Python writes for a float, for the
  hosts that follow it. *)

From Stdlib Require Import String Ascii ZArith List Lia Bool Floats.
From Stdlib Require Import DecimalString DecimalPos DecimalZ.
Import ListNotations.
Open Scope string_scope.

(** * Python prelude *)

Module Py.

(** The double quote character, code 34. *)
Definition dquote : ascii := ascii_of_nat 34.

(** The backslash character, code 92. *)
Definition backslash : ascii := ascii_of_nat 92.

(** Keys of the module level dictionaries: [int] and [str] keys live in the
    same dictionary ([DOCTYPE_PREFIX_MAPPING]). *)
Inductive key :=
| KNone
| KInt (z : Z)
| KStr (s : string).

Definition key_eqb (a b : key) : bool :=
  match a, b with
  | KNone, KNone => true
  | KInt x, KInt y => Z.eqb x y
  | KStr x, KStr y => String.eqb x y
  | _, _ => false
  end.

(** [str(z)] for a Python [int]. *)
Definition str_int (z : Z) : string := NilZero.string_of_int (Z.to_int z).

(** [f'{k}'] *)
Definition str_key (k : key) : string :=
  match k with
  | KNone => "None"
  | KInt z => str_int z
  | KStr s => s
  end.

(** The exceptions the module can raise.  [Exception] is the explicit
    [raise Exception(res)] of [call_femm]; the others are raised by the
    interpreter. *)
Inductive exc :=
| Exception (arg : string)
| TypeError
| KeyError (k : key)
| IndexError
| ZeroDivisionError
| EvalError.

Inductive result (A : Type) :=
| Ok (a : A)
| Raise (e : exc).
Arguments Ok {A} a.
Arguments Raise {A} e.

(** Values a decoded response can be. *)
#[warnings="-register-all"]
Inductive value :=
| VNone
| VInt (z : Z)
| VFloat (x : float)
| VStr (s : string)
| VList (l : list value)
| VTuple (l : list value).

(** [len(v)]: defined on sequences and strings only. *)
Definition len (v : value) : result nat :=
  match v with
  | VList l | VTuple l => Ok (List.length l)
  | VStr s => Ok (String.length s)
  | VNone | VInt _ | VFloat _ => Raise TypeError
  end.

(** [v[0]], evaluated by the source only when [len(v) == 1]. *)
Definition item0 (v : value) : result value :=
  match v with
  | VList (x :: _) | VTuple (x :: _) => Ok x
  | VStr (String c _) => Ok (VStr (String c EmptyString))
  | _ => Raise TypeError
  end.

(** [s.replace(old, new)] for a non-empty [old]: one pass from the left,
    occurrences do not overlap.  [skip] counts the characters of the
    occurrence found last that are still to be dropped. *)
Fixpoint replace_from (skip : nat) (old new s : string) : string :=
  match s with
  | EmptyString => EmptyString
  | String c rest =>
      match skip with
      | S k => replace_from k old new rest
      | O =>
          if String.prefix old s
          then new ++ replace_from (String.length old - 1) old new rest
          else String c (replace_from 0 old new rest)
      end
  end.

Definition replace (old new s : string) : string := replace_from 0 old new s.

(** A dictionary literal, in source order, and subscription on it. *)
Definition dict (V : Type) := list (key * V).

Fixpoint getitem {V : Type} (d : dict V) (k : key) : result V :=
  match d with
  | [] => Raise (KeyError k)
  | (k', v) :: d' => if key_eqb k' k then Ok v else getitem d' k
  end.

End Py.
Import Py.

(** * Module level tables *)

Definition DOCTYPE_MAPPING : dict Z :=
[ (KStr "magnetics", 1%Z);
  (KStr "electrostatics", 2%Z);
  (KStr "heat", 3%Z);
  (KStr "current", 4%Z) ].

Definition DOCTYPE_PREFIX_MAPPING : dict string :=
[ (KInt 0, "m");
  (KStr "magnetics", "m");
  (KInt 1, "e");
  (KStr "electrostatics", "e");
  (KInt 2, "h");
  (KStr "heat", "h");
  (KInt 3, "c");
  (KStr "current", "c") ].

Definition PREFIX_DOCTYPE_MAPPING : dict string :=
[ (KStr "m", "magnetics");
  (KStr "e", "electrostatics");
  (KStr "h", "heat");
  (KStr "c", "current") ].

(** * Arguments and their encoding *)

(** An argument of a command: a number or a text. *)
Inductive arg :=
| AInt (z : Z)
| AFloat (x : float)
| AStr (s : string).

(** What the module takes from its environment. *)
Class Host := {
  (** state of the FEMM process behind the automation handle *)
  engine : Type;
  (** [self.__to_femm.mlab2femm(string)]: the reply and the next state *)
  mlab2femm : engine -> string -> string * engine;
  (** Python's builtin [eval] on a reply *)
  eval : string -> result value;
  (** [str(x)] for a Python [float] *)
  str_float : float -> string;
  (** lines 157 to 163 of [draw_polyline_pattern]: the points of copy [i]
      out of [repeat], rotated about [center] and rounded; numpy raises on
      operands it cannot subtract (a missing center, say) *)
  rotated : list (arg * arg) -> option (arg * arg) -> Z -> nat ->
            result (list (arg * arg))
}.

(** The session object: the automation handle (with, as a ghost field, the
    commands submitted through it so far) and the [doctype_prefix]
    attribute, [None] until [set_mode] assigns it. *)
Record session `{H : Host} := {
  femm : engine;
  sent : list string;
  doctype_prefix : option string
}.

Section Session.

Context `{H : Host}.

(** ** Methods run on the session and may raise *)

Definition M (A : Type) : Type := session -> result A * session.

Definition ret {A} (a : A) : M A := fun s => (Ok a, s).

Definition raise {A} (e : exc) : M A := fun s => (Raise e, s).

Definition bind {A B} (m : M A) (k : A -> M B) : M B :=
  fun s =>
    match m s with
    | (Ok a, s') => k a s'
    | (Raise e, s') => (Raise e, s')
    end.

Definition lift {A} (r : result A) : M A := fun s => (r, s).

Notation "x <- m ;; k" := (bind m (fun x => k))
  (at level 61, m at next level, right associativity).
Notation "m ;;; k" := (bind m (fun _ => k))
  (at level 61, right associativity).

(** [for x in l: body(x)] *)
Fixpoint for_each {A} (l : list A) (body : A -> M unit) : M unit :=
  match l with
  | [] => ret tt
  | x :: l' => body x ;;; for_each l' body
  end.

(** [for x in l: acc = body(x, acc)], for a loop that updates a local. *)
Fixpoint for_fold {A B} (l : list A) (acc : B) (body : A -> B -> M B) : M B :=
  match l with
  | [] => ret acc
  | x :: l' => acc' <- body x acc ;; for_fold l' acc' body
  end.

(** ** FEMMSession *)

(** [self.doctype_prefix + string]; [None + str] is a [TypeError]. *)
Definition _add_doctype_prefix (string : string) : M String.string :=
  fun s =>
    match doctype_prefix s with
    | Some p => (Ok (p ++ string), s)
    | None => (Raise TypeError, s)
    end.

(** [self.__to_femm.mlab2femm(string)] *)
Definition to_femm (string : string) : M String.string :=
  fun s =>
    let (res, e) := mlab2femm (femm s) string in
    (Ok res, {| femm := e; sent := (sent s ++ [string])%list;
                doctype_prefix := doctype_prefix s |}).

(** Lines 52 to 60 of [call_femm]: what becomes of the reply. *)
Definition decode (res : string) : result value :=
  let evaluated :=
    match res with
    | EmptyString => Ok (VList [])
    | String c _ => if Ascii.eqb c "e" then Raise (Exception res) else eval res
    end in
  match evaluated with
  | Raise e => Raise e
  | Ok res =>
      match len res with
      | Raise e => Raise e
      | Ok n => if Nat.eqb n 1 then item0 res else Ok res
      end
  end.

Definition call_femm (string : string) (add_doctype_prefix : bool) : M value :=
  res <- (if add_doctype_prefix
          then (prefixed <- _add_doctype_prefix string ;; to_femm prefixed)
          else to_femm string) ;;
  lift (decode res).

Definition quote (s : string) : string :=
  String dquote s ++ String dquote EmptyString.

(** The conditional expression under the [map] of [_parse_args]. *)
Definition render (a : arg) : string :=
  match a with
  | AStr s => quote s
  | AInt z => str_int z
  | AFloat x => str_float x
  end.

Definition _parse_args (args : list arg) : string :=
  let args_string := String.concat ", " (map render args) in
  "(" ++ args_string ++ ")".

Definition call_femm_with_args (command : string) (args : list arg)
    (add_doctype_prefix : bool) : M value :=
  if add_doctype_prefix
  then (prefixed <- _add_doctype_prefix command ;;
        call_femm (prefixed ++ _parse_args args) false)
  else call_femm (command ++ _parse_args args) false.

Definition _fix_path (path : string) : string :=
  replace "//" "/" (replace (String backslash EmptyString) "/" path).

(** [os.getcwd()] is passed in as [cwd]. *)
Definition set_current_directory (cwd : string) : M unit :=
  let path_of_current_directory := _fix_path cwd in
  call_femm ("setcurrentdirectory(" ++ quote path_of_current_directory ++ ")") false ;;;
  ret tt.

Definition set_mode (doctype : key) : M unit :=
  fun s =>
    match getitem DOCTYPE_PREFIX_MAPPING doctype with
    | Ok p => (Ok tt, {| femm := femm s; sent := sent s; doctype_prefix := Some p |})
    | Raise e => (Raise e, s)
    end.

Definition new_document (doctype : key) : M unit :=
  mode <- lift (match doctype with
                | KStr _ =>
                    match getitem DOCTYPE_MAPPING doctype with
                    | Ok z => Ok (KInt z)
                    | Raise e => Raise e
                    end
                | _ => Ok doctype
                end) ;;
  call_femm ("newdocument(" ++ str_key mode ++ ")") false ;;;
  set_mode mode.

(** The [mode] property. *)
Definition mode : M string :=
  fun s =>
    (getitem PREFIX_DOCTYPE_MAPPING
       (match doctype_prefix s with Some p => KStr p | None => KNone end), s).

(** [FEMMSession()] on a freshly dispatched handle. *)
Definition new_session (e : engine) : session :=
  {| femm := e; sent := []; doctype_prefix := None |}.

Definition init (e : engine) (cwd : string) : result unit * session :=
  set_current_directory cwd (new_session e).

(** ** BaseAPI and PreprocessorAPI *)

Inductive api := BaseAPI | PreprocessorAPI | PostProcessorAPI.

Definition mode_prefix (a : api) : key :=
  match a with
  | BaseAPI => KNone
  | PreprocessorAPI => KStr "i"
  | PostProcessorAPI => KStr "o"
  end.

Definition _add_mode_prefix (a : api) (string : string) : String.string :=
  str_key (mode_prefix a) ++ "_" ++ string.

Definition _call_femm (a : api) (string : string) (add_doctype_prefix : bool)
    : M value :=
  call_femm (_add_mode_prefix a string ++ "()") add_doctype_prefix.

Definition _call_femm_with_args (a : api) (string : string) (args : list arg)
    : M value :=
  call_femm_with_args (_add_mode_prefix a string) args true.

(** A point [[x, y]]. *)
Definition point : Type := arg * arg.

Definition add_node (x y : arg) : M unit :=
  _call_femm_with_args PreprocessorAPI "addnode" [x; y] ;;; ret tt.

Definition add_segment (x1 y1 x2 y2 : arg) : M unit :=
  _call_femm_with_args PreprocessorAPI "addsegment" [x1; y1; x2; y2] ;;; ret tt.

Definition draw_line (x1 y1 x2 y2 : arg) : M unit :=
  add_node x1 y1 ;;;
  add_node x2 y2 ;;;
  add_segment x1 y1 x2 y2.

(** [enumerate(l)] *)
Definition enumerate {A} (l : list A) : list (nat * A) :=
  combine (seq 0 (List.length l)) l.

Definition draw_polyline (points_list : list point) : M unit :=
  for_each (enumerate points_list) (fun '(i, current_point) =>
    add_node (fst current_point) (snd current_point) ;;;
    if Nat.ltb 0 i && Nat.ltb i (List.length points_list)
    then
      match nth_error points_list (i - 1) with
      | Some previous_point =>
          draw_line (fst previous_point) (snd previous_point)
                    (fst current_point) (snd current_point)
      | None => raise IndexError
      end
    else ret tt).

(** The body of the loop of [draw_polyline_pattern], for copy [i] and the
    local [ret] as it stands. *)
Definition pattern_step (points : list point) (center : option point)
    (repeat : Z) (i : nat) (ret_ : list (list point)) : M (list (list point)) :=
  if Nat.eqb i 0
  then draw_polyline points ;;; ret ret_
  else
    new_points <- lift (rotated points center repeat i) ;;
    draw_polyline new_points ;;;
    ret (ret_ ++ [new_points])%list.

(** [change_in_angle = (2 * np.pi) / repeat] divides a float by [repeat];
    [range(repeat)] is empty for a negative [repeat]. *)
Definition draw_polyline_pattern (points : list point) (center : option point)
    (repeat : Z) : M (list (list point)) :=
  if Z.eqb repeat 0 then raise ZeroDivisionError
  else for_fold (seq 0 (Z.to_nat repeat)) [points] (pattern_step points center repeat).

(** ** The other methods of the session and of the two routers *)

Definition quit : M unit :=
  call_femm "quit()" false ;;; ret tt.

Definition close : M unit :=
  _call_femm PreprocessorAPI "close" true ;;; ret tt.

Definition add_block_label (x y : arg) : M unit :=
  _call_femm_with_args PreprocessorAPI "addblocklabel" [x; y] ;;; ret tt.

Definition add_arc (x1 y1 x2 y2 angle max_seg : arg) : M unit :=
  _call_femm_with_args PreprocessorAPI "addarc" [x1; y1; x2; y2; angle; max_seg] ;;;
  ret tt.

Definition draw_arc (x1 y1 x2 y2 angle max_seg : arg) : M unit :=
  add_node x1 y1 ;;;
  add_node x2 y2 ;;;
  add_arc x1 y1 x2 y2 angle max_seg.

(** [points_list[0]] and [points_list[::-1][0]] are evaluated, in this
    order, after the polyline is drawn. *)
Definition draw_polygon (points_list : list point) : M unit :=
  draw_polyline points_list ;;;
  match nth_error points_list 0 with
  | None => raise IndexError
  | Some first =>
      match nth_error (rev points_list) 0 with
      | None => raise IndexError
      | Some last => draw_line (fst first) (snd first) (fst last) (snd last)
      end
  end.

Definition draw_rectangle (x1 y1 x2 y2 : arg) : M unit :=
  draw_line x1 y1 x2 y1 ;;;
  draw_line x2 y1 x2 y2 ;;;
  draw_line x2 y2 x1 y2 ;;;
  draw_line x1 y2 x1 y1.

(** The body of the loop of [draw_arc_pattern]; lines 174 to 181 are the
    computation of lines 157 to 163 on the two end points. *)
Definition arc_pattern_step (x1 y1 x2 y2 angle max_seg : arg)
    (center : option point) (repeat : Z) (i : nat) : M unit :=
  if Nat.eqb i 0
  then draw_arc x1 y1 x2 y2 angle max_seg
  else
    new_points <- lift (rotated [(x1, y1); (x2, y2)] center repeat i) ;;
    match nth_error new_points 0, nth_error new_points 1 with
    | Some p0, Some p1 =>
        draw_arc (fst p0) (snd p0) (fst p1) (snd p1) angle max_seg
    | _, _ => raise IndexError
    end.

Definition draw_arc_pattern (x1 y1 x2 y2 angle max_seg : arg)
    (center : option point) (repeat : Z) : M unit :=
  if Z.eqb repeat 0 then raise ZeroDivisionError
  else for_each (seq 0 (Z.to_nat repeat))
         (arc_pattern_step x1 y1 x2 y2 angle max_seg center repeat).

Definition zoom_natural : M unit :=
  _call_femm PreprocessorAPI "zoomnatural" true ;;; ret tt.

Definition zoom (x1 y1 x2 y2 : arg) : M unit :=
  _call_femm_with_args PreprocessorAPI "zoom" [x1; y1; x2; y2] ;;; ret tt.

Definition line_integral (integral_type : arg) : M value :=
  _call_femm_with_args PostProcessorAPI "lineintegral" [integral_type].

Definition block_integral (integral_type : arg) : M value :=
  _call_femm_with_args PostProcessorAPI "blockintegral" [integral_type].

End Session.

Arguments M {H} A.

Arguments session H : clear implicits.

(** [pre.delete_selected()]: one of the wrappers that call [_call_femm]
    with its default [add_doctype_prefix=False]. *)
Definition delete_selected `{H : Host} : M unit :=
  bind (_call_femm PreprocessorAPI "deleteselected" false) (fun _ => ret tt).

(** * The four physics domains *)

(** The canonical modes, with the name and the ordinal code the docstring
    of [new_document] gives each. *)
Inductive physics := magnetics | electrostatics | heat | current.

Definition name (m : physics) : string :=
  match m with
  | magnetics => "magnetics"
  | electrostatics => "electrostatics"
  | heat => "heat"
  | current => "current"
  end.

Definition ordinal (m : physics) : Z :=
  match m with
  | magnetics => 0
  | electrostatics => 1
  | heat => 2
  | current => 3
  end.

(** * Python floats and their text *)

Module PyFloat.

(** The float nearest to [m * 10 ^ e], ties to the even mantissa, with
    the sign [negative]: the value of a decimal numeral, as [float(text)]
    and the C library's [strtod] compute it. *)
Definition float_of_decimal (negative : bool) (m e : Z) : float :=
  SF2Prim
    match m with
    | Zpos p =>
        if Z.leb 0 e
        then binary_normalize prec emax
               (Z.mul (if negative then Zneg p else Zpos p) (Z.pow 10 e)) 0 negative
        else SFdiv prec emax (S754_finite negative p 0)
               (S754_finite false (Z.to_pos (Z.pow 10 (Z.opp e))) 0)
    | _ => S754_zero negative
    end.

Fixpoint zeros (n : nat) : string :=
  match n with
  | O => EmptyString
  | S k => String "0" (zeros k)
  end.

(** A digit string without its trailing zeros. *)
Fixpoint rstrip0 (s : string) : string :=
  match s with
  | EmptyString => EmptyString
  | String c r =>
      match rstrip0 r with
      | EmptyString => if Ascii.eqb c "0" then EmptyString else String c EmptyString
      | r' => String c r'
      end
  end.

(** The candidates of [n] digits for the positive float [x], whose exact
    value is [N * 10 ^ (- j)] with [N] of [L] decimal digits: the first
    [n] digits of [N] and their successor.  A candidate counts when it
    reads back as [x]; of two that count the nearer is taken, the even one
    on a tie.  The result is the digits and the position of the point
    after the first of them. *)
Definition shortest_step (x : float) (N : Z) (L : nat) (j : Z) (n : nat)
    : option (string * Z) :=
  let w := Z.pow 10 (Z.of_nat (L - n)) in
  let f := Z.div N w in
  let r := Z.modulo N w in
  let c := Z.add f 1 in
  let e := (Z.of_nat (L - n) - j)%Z in
  let decpt := (Z.of_nat L - j)%Z in
  let fok := PrimFloat.Leibniz.eqb (float_of_decimal false f e) x in
  let cok := PrimFloat.Leibniz.eqb (float_of_decimal false c e) x in
  let ftxt := (rstrip0 (str_int f), decpt) in
  let ctxt := if Z.eqb c (Z.pow 10 (Z.of_nat n))
              then ("1", (decpt + 1)%Z)
              else (rstrip0 (str_int c), decpt) in
  match fok, cok with
  | true, true =>
      Some match Z.compare (2 * r) w with
           | Lt => ftxt
           | Gt => ctxt
           | Eq => if Z.even f then ftxt else ctxt
           end
  | true, false => Some ftxt
  | false, true => Some ctxt
  | false, false => None
  end.

(** The shortest digits that read back as [x], tried from [n] digits up;
    all the digits of [N] when they are no more than [n]. *)
Fixpoint shortest_from (fuel : nat) (x : float) (N : Z) (L : nat) (j : Z)
    (n : nat) : string * Z :=
  match fuel with
  | O => (rstrip0 (str_int N), (Z.of_nat L - j)%Z)
  | S fuel' =>
      if Nat.leb L n then (rstrip0 (str_int N), (Z.of_nat L - j)%Z)
      else
        match shortest_step x N L j n with
        | Some r => r
        | None => shortest_from fuel' x N L j (S n)
        end
  end.

(** The exponent of the scientific form: a sign and two digits at
    least. *)
Definition exponent_text (e : Z) : string :=
  let a := str_int (Z.abs e) in
  (if Z.ltb e 0 then "-" else "+")
  ++ (if Nat.ltb (String.length a) 2 then "0" ++ a else a).

(** The layout of [repr]: scientific when the point lies more than three
    places before the digits or more than sixteen places into them,
    positional otherwise, with [.0] after a whole number. *)
Definition format_short (ds : string) (decpt : Z) : string :=
  let nd := Z.of_nat (String.length ds) in
  if Z.leb decpt (-4) || Z.ltb 16 decpt then
    match ds with
    | String d EmptyString => String d EmptyString ++ "e" ++ exponent_text (decpt - 1)
    | String d rest => String d (String "." rest) ++ "e" ++ exponent_text (decpt - 1)
    | EmptyString => EmptyString
    end
  else if Z.leb decpt 0 then "0." ++ zeros (Z.to_nat (- decpt)) ++ ds
  else if Z.leb nd decpt then ds ++ zeros (Z.to_nat (decpt - nd)) ++ ".0"
  else substring 0 (Z.to_nat decpt) ds ++ "."
       ++ substring (Z.to_nat decpt) (String.length ds - Z.to_nat decpt) ds.

(** [str(x)] and [repr(x)] for a Python [float]: the shortest decimal
    text that reads back as [x]; words for the values that are not
    finite. *)
Definition float_repr (x : float) : string :=
  match Prim2SF x with
  | S754_nan => "nan"
  | S754_infinity s => if s then "-inf" else "inf"
  | S754_zero s => if s then "-0.0" else "0.0"
  | S754_finite s m e =>
      let N := if Z.leb 0 e then Z.mul (Zpos m) (Z.pow 2 e)
               else Z.mul (Zpos m) (Z.pow 5 (Z.opp e)) in
      let j := if Z.leb 0 e then 0%Z else Z.opp e in
      let L := String.length (str_int N) in
      let '(ds, decpt) := shortest_from 17 (PrimFloat.abs x) N L j 1 in
      (if s then "-" else EmptyString) ++ format_short ds decpt
  end.

End PyFloat.
Import PyFloat.

(** * The literal grammar of argument lists *)

Module Literal.

(** Characters of a numeral: the digits, the signs, the point and the
    mark of the exponent. *)
Definition is_number_char (c : ascii) : bool :=
  Ascii.eqb c "-" || Ascii.eqb c "+" || Ascii.eqb c "." || Ascii.eqb c "e"
  || Ascii.eqb c "E"
  || (Nat.leb 48 (nat_of_ascii c) && Nat.leb (nat_of_ascii c) 57).

Definition digit_value (c : ascii) : option Z :=
  let n := nat_of_ascii c in
  if Nat.leb 48 n && Nat.leb n 57 then Some (Z.of_nat (n - 48)) else None.

(** The digits at the head of [s], read on from the value [acc]: the
    value, the number of digits and what follows them. *)
Fixpoint read_digits (acc : Z) (s : string) : Z * nat * string :=
  match s with
  | EmptyString => (acc, 0, EmptyString)
  | String c rest =>
      match digit_value c with
      | Some d =>
          let '(m, n, r) := read_digits (10 * acc + d) rest in (m, S n, r)
      | None => (acc, 0, s)
      end
  end.

(** The exponent part, which ends the numeral; none counts as zero. *)
Definition read_exponent (s : string) : option Z :=
  match s with
  | EmptyString => Some 0%Z
  | String c rest =>
      if Ascii.eqb c "e" || Ascii.eqb c "E"
      then
        let '(negative, digits) :=
          match rest with
          | String "-"%char r => (true, r)
          | String "+"%char r => (false, r)
          | _ => (false, rest)
          end in
        match read_digits 0 digits with
        | (e, S _, EmptyString) => Some (if negative then (- e)%Z else e)
        | _ => None
        end
      else None
  end.

(** A decimal numeral with a fraction or an exponent: an optional minus
    sign, digits, a point and digits, an exponent; one digit at least.  It
    denotes the nearest float. *)
Definition read_float (s : string) : option float :=
  let '(negative, s1) :=
    match s with
    | String "-"%char r => (true, r)
    | _ => (false, s)
    end in
  let '(ip, ni, s2) := read_digits 0 s1 in
  let '(m, nf, s3) :=
    match s2 with
    | String "."%char r => read_digits ip r
    | _ => (ip, 0, s2)
    end in
  match ni + nf with
  | O => None
  | S _ =>
      match read_exponent s3 with
      | Some e => Some (float_of_decimal negative m (e - Z.of_nat nf))
      | None => None
      end
  end.

(** A numeral: digits alone, with or without a minus sign, denote a whole
    number; any other decimal numeral denotes a float.  That is how
    [str] tells the two apart. *)
Definition read_numeral (t : string) : option arg :=
  match NilZero.int_of_string t with
  | Some d => Some (AInt (Z.of_int d))
  | None =>
      match read_float t with
      | Some x => Some (AFloat x)
      | None => None
      end
  end.

(** The text up to the closing double quote, and what follows the quote. *)
Fixpoint read_text (s : string) : option (string * string) :=
  match s with
  | EmptyString => None
  | String c rest =>
      if Ascii.eqb c dquote then Some (EmptyString, rest)
      else
        match read_text rest with
        | Some (t, r) => Some (String c t, r)
        | None => None
        end
  end.

(** The longest prefix made of the characters of a numeral, and what
    follows it. *)
Fixpoint read_number (s : string) : string * string :=
  match s with
  | EmptyString => (EmptyString, EmptyString)
  | String c rest =>
      if is_number_char c
      then let (t, r) := read_number rest in (String c t, r)
      else (EmptyString, s)
  end.

(** One literal: a text between double quotes, taken verbatim, or a
    numeral. *)
Definition read_item (s : string) : option (arg * string) :=
  match s with
  | EmptyString => None
  | String c rest =>
      if Ascii.eqb c dquote
      then
        match read_text rest with
        | Some (t, r) => Some (AStr t, r)
        | None => None
        end
      else
        let (t, r) := read_number s in
        match read_numeral t with
        | Some a => Some (a, r)
        | None => None
        end
  end.

(** [s] without the blanks at its head. *)
Fixpoint skip_blanks (s : string) : string :=
  match s with
  | EmptyString => EmptyString
  | String c rest => if Ascii.eqb c " " then skip_blanks rest else s
  end.

(** Literals separated by commas, up to [close]; blanks around a comma
    and before [close] do not count; the text must end at [close].
    [fuel] bounds the number of literals. *)
Fixpoint read_items (fuel : nat) (close : ascii) (s : string) : option (list arg) :=
  match fuel with
  | O => None
  | S fuel' =>
      match read_item s with
      | None => None
      | Some (a, r) =>
          match skip_blanks r with
          | EmptyString => None
          | String c r' =>
              if Ascii.eqb c close
              then
                match r' with
                | EmptyString => Some [a]
                | _ => None
                end
              else if Ascii.eqb c ","
              then
                match read_items fuel' close (skip_blanks r') with
                | Some l => Some (a :: l)
                | None => None
                end
              else None
          end
      end
  end.

Definition read_sequence (open close : ascii) (s : string) : option (list arg) :=
  match s with
  | String c rest =>
      if Ascii.eqb c open
      then
        let body := skip_blanks rest in
        match body with
        | String c' EmptyString => if Ascii.eqb c' close then Some [] else None
        | _ => read_items (String.length body) close body
        end
      else None
  | EmptyString => None
  end.

(** Modelled from the spec: the reader of the engine's scripting language
    for a call argument list, which is not part of the repository.  Section
    4.2 fixes the syntax: the literals separated by commas (that a
    blank follows the comma is of no account to a reader), the whole in
    parentheses, a text between double quotes verbatim (nothing is
    escaped), a number in decimal: whole, or with a fraction or an
    exponent. *)
Definition parse (s : string) : option (list arg) := read_sequence "(" ")" s.

Definition value_of_arg (a : arg) : value :=
  match a with
  | AInt z => VInt z
  | AFloat x => VFloat x
  | AStr s => VStr s
  end.

(** A stand-in for [eval] on the replies used in the examples: a list
    display of whole numbers and texts. *)
Definition eval_display (s : string) : result value :=
  match read_sequence "[" "]" s with
  | Some l => Ok (VList (map value_of_arg l))
  | None => Raise EvalError
  end.

End Literal.

(** * A scripted engine *)

(** An engine that answers from a script, one reply per command, and
    nothing once the script is used up; rotation leaves the points where
    they are.  It stands in for FEMM in the examples. *)
Definition scripted_mlab2femm (replies : list string) (command : string)
    : string * list string :=
  match replies with
  | [] => (EmptyString, [])
  | r :: rest => (r, rest)
  end.

#[local] Instance scripted : Host := {|
  engine := list string;
  mlab2femm := scripted_mlab2femm;
  eval := Literal.eval_display;
  str_float := fun _ => "nan";
  rotated := fun points _ _ _ => Ok points
|}.

(** A fresh session on the scripted engine. *)
Definition scripted_session (replies : list string) : session scripted :=
  new_session (H := scripted) replies.

(** The scripted engine with a mode set and nothing left to reply. *)
Definition scripted_ready : session scripted :=
  {| femm := []; sent := []; doctype_prefix := Some "m" |}.

(** The scripted engine with a mode set and [replies] to give. *)
Definition scripted_in_mode (replies : list string) : session scripted :=
  {| femm := replies; sent := []; doctype_prefix := Some "m" |}.

(** The scripted engine with the rotation of numpy's typing: without a
    center the subtraction raises. *)
Definition centred : Host := {|
  engine := list string;
  mlab2femm := scripted_mlab2femm;
  eval := Literal.eval_display;
  str_float := fun _ => "nan";
  rotated := fun points center _ _ =>
    match center with
    | Some _ => Ok points
    | None => Raise TypeError
    end
|}.

Definition centred_ready : session centred :=
  @Build_session centred [] [] (Some "m").

(** Equality of arguments, and of lists of points. *)
Definition arg_eqb (a b : arg) : bool :=
  match a, b with
  | AInt x, AInt y => Z.eqb x y
  | AFloat x, AFloat y => PrimFloat.Leibniz.eqb x y
  | AStr x, AStr y => String.eqb x y
  | _, _ => false
  end.

Fixpoint points_eqb (l m : list (arg * arg)) : bool :=
  match l, m with
  | [], [] => true
  | (x, y) :: l', (x', y') :: m' =>
      arg_eqb x x' && arg_eqb y y' && points_eqb l' m'
  | _, _ => false
  end.

(** The segment from (1, 1) to (2, 1), and what lines 157 to 163 compute
    from it, with numpy, about the origin for four copies: the quarter
    turns, as lists of floats rounded to five places.  Nothing else is on
    record. *)
Definition recorded_points : list (arg * arg) :=
  [(AInt 1, AInt 1); (AInt 2, AInt 1)].

Definition recorded_rotation (points : list (arg * arg))
    (center : option (arg * arg)) (repeat : Z) (i : nat)
    : result (list (arg * arg)) :=
  if points_eqb points recorded_points
     && match center with
        | Some (AInt 0, AInt 0) => true
        | _ => false
        end
     && Z.eqb repeat 4
  then
    match i with
    | 1 => Ok [(AFloat (-1)%float, AFloat 1%float); (AFloat (-1)%float, AFloat 2%float)]
    | 2 => Ok [(AFloat (-1)%float, AFloat (-1)%float);
               (AFloat (-2)%float, AFloat (-1)%float)]
    | 3 => Ok [(AFloat 1%float, AFloat (-1)%float); (AFloat 1%float, AFloat (-2)%float)]
    | _ => Raise EvalError
    end
  else Raise EvalError.

(** The scripted engine with the text Python gives a float and the
    recorded rotations. *)
Definition python : Host := {|
  engine := list string;
  mlab2femm := scripted_mlab2femm;
  eval := Literal.eval_display;
  str_float := float_repr;
  rotated := recorded_rotation
|}.

Definition python_ready : session python :=
  @Build_session python [] [] (Some "m").

(** * Vocabulary of the properties *)

Section Vocabulary.

Context `{H : Host}.

(** The session once [string] has been submitted and the engine has moved
    to [e]. *)
Definition submitted (s : session H) (string : string) (e : engine) : session H :=
  {| femm := e; sent := (sent s ++ [string])%list;
     doctype_prefix := doctype_prefix s |}.

(** The text [call_femm] submits for [string]: the doctype prefix comes
    first when it is asked for, and then there is nothing to submit while
    no mode is set. *)
Definition submission (s : session H) (string : string)
    (add_doctype_prefix : bool) : option String.string :=
  if add_doctype_prefix
  then match doctype_prefix s with
       | Some p => Some (p ++ string)
       | None => None
       end
  else Some string.

(** The engine after a run of commands. *)
Fixpoint after (e : engine) (commands : list string) : engine :=
  match commands with
  | [] => e
  | c :: rest => after (snd (mlab2femm e c)) rest
  end.

(** An engine that from now on replies with the empty text, as FEMM does
    to the drawing commands. *)
Definition quiet (e : engine) : Prop :=
  forall commands c, fst (mlab2femm (after e commands) c) = EmptyString.

(** A session in which prefixed commands go through: a mode is set and
    the engine is quiet. *)
Definition ready (s : session H) : Prop :=
  (exists p, doctype_prefix s = Some p) /\ quiet (femm s).

(** [m] returns, and leaves the session ready, whenever it starts ready. *)
Definition runs {A} (m : M A) : Prop :=
  forall s, ready s -> exists a s', m s = (Ok a, s') /\ ready s'.

(** [m] leaves the mode of the session as it finds it, whether it
    returns or raises. *)
Definition keeps_mode {A} (m : M A) : Prop :=
  forall s, doctype_prefix (snd (m s)) = doctype_prefix s.

(** From a ready session [m] returns, leaves the session ready and has
    submitted [k] commands. *)
Definition sends {A} (k : nat) (m : M A) : Prop :=
  forall s, ready s ->
    exists a s', m s = (Ok a, s') /\ ready s'
                 /\ List.length (sent s') = List.length (sent s) + k.

(** The number of commands [draw_polyline] submits for the point at
    index [i]. *)
Definition polyline_commands (i : nat) : nat := if Nat.eqb i 0 then 1 else 4.

End Vocabulary.

(** The elements of a decoded sequence. *)
Definition items (v : value) : option (list value) :=
  match v with
  | VList l | VTuple l => Some l
  | _ => None
  end.

(** [c in s] *)
Fixpoint has_char (c : ascii) (s : string) : bool :=
  match s with
  | EmptyString => false
  | String c' rest => Ascii.eqb c' c || has_char c rest
  end.

(** Every character of [s] is a digit or the sign. *)
Fixpoint number_text (s : string) : bool :=
  match s with
  | EmptyString => true
  | String c rest => Literal.is_number_char c && number_text rest
  end.

(** The arguments of the round trip: whole numbers, and texts without a
    double quote. *)
Definition plain (a : arg) : bool :=
  match a with
  | AInt _ => true
  | AStr s => negb (has_char dquote s)
  | AFloat _ => false
  end.

(** [s] does not go on with a character of a number. *)
Definition ends_number (s : string) : bool :=
  match s with
  | EmptyString => true
  | String c _ => negb (Literal.is_number_char c)
  end.

(** An argument whose rendering the literal grammar reads back: any
    whole number, a text without a double quote, a float whose text on the
    host is a numeral that denotes it. *)
Definition readable `{H : Host} (a : arg) : Prop :=
  match a with
  | AInt _ => True
  | AStr s => has_char dquote s = false
  | AFloat x =>
      number_text (str_float x) = true
      /\ Literal.read_numeral (str_float x) = Some (AFloat x)
  end.


(** [pat in s] *)
Fixpoint contains (pat s : string) : bool :=
  String.prefix pat s
  || match s with
     | EmptyString => false
     | String _ rest => contains pat rest
     end.

(** A path separator of either kind. *)
Definition is_separator (c : ascii) : bool :=
  Ascii.eqb c "/"%char || Ascii.eqb c backslash.

(** [s] starts with [n] separators. *)
Fixpoint starts_with_separators (n : nat) (s : string) : bool :=
  match n with
  | O => true
  | S k =>
      match s with
      | EmptyString => false
      | String c rest => is_separator c && starts_with_separators k rest
      end
  end.

(** [s] holds [n] separators in a row. *)
Fixpoint has_separator_run (n : nat) (s : string) : bool :=
  starts_with_separators n s
  || match s with
     | EmptyString => false
     | String _ rest => has_separator_run n rest
     end.

(** What the first [replace] of [_fix_path] makes of a character. *)
Definition to_slash (c : ascii) : ascii :=
  if Ascii.eqb c backslash then "/"%char else c.

(** * Properties *)

Section Modes.

Context `{H : Host}.

Lemma set_mode_by_name (m : physics) (s : session H) :
  set_mode (KStr (name m)) s = set_mode (KInt (ordinal m)) s.
Proof. destruct m; reflexivity. Qed.

(** [new_document] given a name behaves as [new_document] given the
    ordinal that follows the one of the name. *)
Lemma new_document_by_name (m : physics) (s : session H) :
  new_document (KStr (name m)) s = new_document (KInt (ordinal m + 1)) s.
Proof. destruct m; reflexivity. Qed.

(** C9: after [set_mode] with a canonical name, the [mode] property is
    that name. *)
Theorem set_mode_then_mode (m : physics) (s : session H) :
  exists s', set_mode (KStr (name m)) s = (Ok tt, s')
             /\ mode s' = (Ok (name m), s').
Proof.
  destruct m; eexists; split; reflexivity.
Qed.

End Modes.

(** C1: on an engine that accepts every command, opening a document by the
    name [magnetics] submits [newdocument(1)] and leaves the prefix of
    electrostatics, while opening it by the ordinal 0 leaves the prefix of
    magnetics; the name [current] is looked up under 4 and raises. *)
Theorem new_document_name_vs_ordinal :
  new_document (KStr "magnetics") (scripted_session [])
    = (Ok tt, {| femm := []; sent := ["newdocument(1)"]; doctype_prefix := Some "e" |})
  /\ new_document (KInt 0) (scripted_session [])
    = (Ok tt, {| femm := []; sent := ["newdocument(0)"]; doctype_prefix := Some "m" |})
  /\ new_document (KStr "current") (scripted_session [])
    = (Raise (KeyError (KInt 4)),
       {| femm := []; sent := ["newdocument(4)"]; doctype_prefix := None |}).
Proof. repeat split. Qed.

Section Channel.

Context `{H : Host}.

Lemma call_femm_submission (s : session H) (string command res : string)
    (add_doctype_prefix : bool) (e : engine) :
  submission s string add_doctype_prefix = Some command ->
  mlab2femm (femm s) command = (res, e) ->
  call_femm string add_doctype_prefix s = (decode res, submitted s command e).
Proof.
  unfold submission, call_femm, bind, _add_doctype_prefix, to_femm, lift.
  destruct add_doctype_prefix.
  - destruct (doctype_prefix s) as [p|]; [|discriminate].
    intros [= <-] ->. reflexivity.
  - intros [= <-] ->. reflexivity.
Qed.

Lemma decode_error (rest : string) :
  decode (String "e" rest) = Raise (Exception (String "e" rest)).
Proof. reflexivity. Qed.

Lemma decode_singleton (c : ascii) (rest : string) (v w : value) :
  c <> "e"%char ->
  eval (String c rest) = Ok v ->
  items v = Some [w] ->
  decode (String c rest) = Ok w.
Proof.
  intros Hc Hv Hw. unfold decode.
  destruct (Ascii.eqb_spec c "e") as [->|_]; [contradiction|].
  rewrite Hv.
  destruct v; simpl in Hw; inversion Hw; subst; reflexivity.
Qed.

Lemma decode_sequence (c : ascii) (rest : string) (v : value) (l : list value) :
  c <> "e"%char ->
  eval (String c rest) = Ok v ->
  items v = Some l ->
  List.length l <> 1 ->
  decode (String c rest) = Ok v.
Proof.
  intros Hc Hv Hl Hk. unfold decode.
  destruct (Ascii.eqb_spec c "e") as [->|_]; [contradiction|].
  rewrite Hv.
  destruct v; simpl in Hl; inversion Hl; subst; simpl;
    destruct (Nat.eqb_spec (List.length l) 1); congruence.
Qed.

(** A reply that evaluates to a bare number has no length. *)
Lemma decode_bare_number (c : ascii) (rest : string) (z : Z) :
  c <> "e"%char ->
  eval (String c rest) = Ok (VInt z) ->
  decode (String c rest) = Raise TypeError.
Proof.
  intros Hc Hv. unfold decode.
  destruct (Ascii.eqb_spec c "e") as [->|_]; [contradiction|].
  now rewrite Hv.
Qed.

(** C2, as the code has it: a reply that starts with the sentinel makes
    [call_femm] raise [Exception] carrying the whole reply, sentinel
    included, whatever follows the sentinel; no value is returned. *)
Theorem call_femm_error_reply (s : session H) (string command rest : string)
    (add_doctype_prefix : bool) (e : engine) :
  submission s string add_doctype_prefix = Some command ->
  mlab2femm (femm s) command = (String "e" rest, e) ->
  call_femm string add_doctype_prefix s
    = (Raise (Exception (String "e" rest)), submitted s command e)
  /\ forall v s', call_femm string add_doctype_prefix s <> (Ok v, s').
Proof.
  intros Hcommand Hreply.
  rewrite (call_femm_submission _ _ _ _ _ _ Hcommand Hreply), decode_error.
  split; [reflexivity | congruence].
Qed.

(** C3: a reply that is not an error decodes to the empty list when it is
    empty, to the single element when it evaluates to a sequence of one
    element, and to the sequence itself, unchanged, when it evaluates to a
    sequence of more than one element. *)
Theorem call_femm_decodes (s : session H) (string command res : string)
    (add_doctype_prefix : bool) (e : engine) :
  submission s string add_doctype_prefix = Some command ->
  mlab2femm (femm s) command = (res, e) ->
  String.prefix "e" res = false ->
  (res = EmptyString ->
     call_femm string add_doctype_prefix s
     = (Ok (VList []), submitted s command e))
  /\ (forall v w, res <> EmptyString -> eval res = Ok v -> items v = Some [w] ->
        call_femm string add_doctype_prefix s = (Ok w, submitted s command e))
  /\ (forall v l, res <> EmptyString -> eval res = Ok v -> items v = Some l ->
        1 < List.length l ->
        call_femm string add_doctype_prefix s = (Ok v, submitted s command e)
        /\ items v = Some l).
Proof.
  intros Hcommand Hreply Hne.
  rewrite (call_femm_submission _ _ _ _ _ _ Hcommand Hreply).
  assert (forall c rest, res = String c rest -> c <> "e"%char) as Hhead.
  { intros c rest -> ->. destruct rest; discriminate. }
  split; [|split].
  - intros ->. reflexivity.
  - intros v w Hres Hv Hw. destruct res as [|c rest]; [contradiction|].
    rewrite (decode_singleton c rest v w (Hhead c rest eq_refl) Hv Hw).
    reflexivity.
  - intros v l Hres Hv Hl Hk. destruct res as [|c rest]; [contradiction|].
    rewrite (decode_sequence c rest v l (Hhead c rest eq_refl) Hv Hl); [auto | lia].
Qed.

(** C4: while no mode has been set, a command that is to carry the
    doctype prefix raises [TypeError] (the sum of [None] and a text) and
    the session is left as it was: nothing has been submitted. *)
Theorem no_mode_no_command (s : session H) (a : api) (string : string)
    (args : list arg) :
  doctype_prefix s = None ->
  call_femm string true s = (Raise TypeError, s)
  /\ call_femm_with_args string args true s = (Raise TypeError, s)
  /\ _call_femm a string true s = (Raise TypeError, s)
  /\ _call_femm_with_args a string args s = (Raise TypeError, s).
Proof.
  intros Hnone.
  unfold _call_femm, _call_femm_with_args, call_femm_with_args, call_femm,
    bind, _add_doctype_prefix.
  rewrite Hnone. repeat split.
Qed.

(** X24. [delete_selected] does not ask for the doctype prefix: its command
    goes out under the routing prefix alone, mode or no mode. *)
Lemma delete_selected_submits (s : session H) :
  sent (snd (delete_selected s)) = (sent s ++ ["i_deleteselected()"])%list.
Proof.
  unfold delete_selected, _call_femm, call_femm, bind, to_femm, lift.
  cbn [_add_mode_prefix mode_prefix str_key append].
  destruct (mlab2femm (femm s) "i_deleteselected()") as [res e].
  destruct (decode res); reflexivity.
Qed.

End Channel.

Section Pattern.

Context `{H : Host}.

Lemma quiet_step (e : engine) (c : string) :
  quiet e -> quiet (snd (mlab2femm e c)).
Proof. intros Hq commands c'. apply (Hq (c :: commands)). Qed.

Lemma runs_ret {A} (a : A) : runs (ret a).
Proof. intros s Hs. exists a, s. split; [reflexivity | assumption]. Qed.

Lemma runs_bind {A B} (m : M A) (k : A -> M B) :
  runs m -> (forall a, runs (k a)) -> runs (bind m k).
Proof.
  intros Hm Hk s Hs. destruct (Hm s Hs) as (a & s1 & Em & Hs1).
  destruct (Hk a s1 Hs1) as (b & s2 & Ek & Hs2).
  exists b, s2. unfold bind. rewrite Em. auto.
Qed.

Lemma runs_lift {A} (a : A) : runs (lift (Ok a)).
Proof. apply (runs_ret a). Qed.

Lemma runs_for_each {A} (l : list A) (body : A -> M unit) :
  (forall x, In x l -> runs (body x)) -> runs (for_each l body).
Proof.
  induction l as [|x l IH]; intros Hbody; simpl.
  - apply runs_ret.
  - apply runs_bind.
    + apply Hbody. now left.
    + intros _. apply IH. intros y Hy. apply Hbody. now right.
Qed.

Lemma runs_call_femm (string : string) : runs (call_femm string false).
Proof.
  intros s [Hp Hq]. unfold call_femm, bind, to_femm, lift.
  pose proof (Hq [] string) as Hreply. simpl in Hreply.
  destruct (mlab2femm (femm s) string) as [res e] eqn:E. simpl in Hreply.
  subst res. eexists _, _. split; [reflexivity|].
  split; [exact Hp|]. simpl.
  replace e with (snd (mlab2femm (femm s) string)) by now rewrite E.
  now apply quiet_step.
Qed.

Lemma runs_call_femm_with_args (command : string) (args : list arg) :
  runs (call_femm_with_args command args true).
Proof.
  intros s Hs. pose proof Hs as [[p Hp] _].
  unfold call_femm_with_args, bind, _add_doctype_prefix. rewrite Hp.
  now apply runs_call_femm.
Qed.

Lemma runs_add_node (x y : arg) : runs (add_node x y).
Proof.
  apply runs_bind; [apply runs_call_femm_with_args | intros _; apply runs_ret].
Qed.

Lemma runs_add_segment (x1 y1 x2 y2 : arg) : runs (add_segment x1 y1 x2 y2).
Proof.
  apply runs_bind; [apply runs_call_femm_with_args | intros _; apply runs_ret].
Qed.

Lemma runs_draw_line (x1 y1 x2 y2 : arg) : runs (draw_line x1 y1 x2 y2).
Proof.
  unfold draw_line.
  repeat (apply runs_bind; [apply runs_add_node | intros _]).
  apply runs_add_segment.
Qed.

Lemma in_enumerate {A} (l : list A) (i : nat) (x : A) :
  In (i, x) (enumerate l) -> i < List.length l.
Proof.
  intros Hin. apply in_combine_l in Hin. apply in_seq in Hin. lia.
Qed.

Lemma runs_draw_polyline (points_list : list point) :
  runs (draw_polyline points_list).
Proof.
  apply runs_for_each. intros [i current_point] Hin.
  apply in_enumerate in Hin.
  apply runs_bind; [apply runs_add_node | intros _].
  destruct (Nat.ltb 0 i && Nat.ltb i (List.length points_list)); [|apply runs_ret].
  destruct (nth_error points_list (i - 1)) as [previous_point|] eqn:E.
  - apply runs_draw_line.
  - apply nth_error_None in E. lia.
Qed.

Lemma draw_polyline_pattern_unfold (points : list point) (center : option point)
    (repeat : Z) :
  repeat <> 0%Z ->
  draw_polyline_pattern points center repeat
  = for_fold (seq 0 (Z.to_nat repeat)) [points] (pattern_step points center repeat).
Proof.
  intros Hz. unfold draw_polyline_pattern.
  destruct (Z.eqb_spec repeat 0); [contradiction | reflexivity].
Qed.

(** Every later copy appends one shape to the collection. *)
Lemma pattern_later_copies (points : list point) (center : option point)
    (repeat : Z) (n k : nat) (acc shapes : list (list point)) (s s' : session H) :
  for_fold (seq (S k) n) acc (pattern_step points center repeat) s = (Ok shapes, s') ->
  exists extra, shapes = (acc ++ extra)%list /\ List.length extra = n.
Proof.
  revert k acc s. induction n as [|n IH]; intros k acc s; simpl.
  - intros [= <- <-]. exists []. now rewrite app_nil_r.
  - unfold bind at 1. unfold pattern_step at 1. simpl.
    unfold bind at 1, lift.
    destruct (rotated points center repeat (S k)) as [new_points|e]; [|discriminate].
    unfold bind at 1.
    destruct (draw_polyline new_points s) as [[[]|e] s1]; [|discriminate].
    unfold ret at 1. intros Hrest. apply IH in Hrest as (extra & -> & Hlen).
    exists (new_points :: extra). rewrite <- app_assoc. simpl. auto.
Qed.

Lemma runs_later_copies (points : list point) (center : option point)
    (repeat : Z) (n k : nat) (acc : list (list point)) :
  (forall i, S k <= i < S k + n -> exists ps, rotated points center repeat i = Ok ps) ->
  runs (for_fold (seq (S k) n) acc (pattern_step points center repeat)).
Proof.
  revert k acc. induction n as [|n IH]; intros k acc Hrot; simpl.
  - apply runs_ret.
  - apply runs_bind.
    + unfold pattern_step. simpl.
      destruct (Hrot (S k)) as [ps ->]; [lia|].
      apply runs_bind; [apply runs_lift | intros new_points].
      apply runs_bind; [apply runs_draw_polyline | intros _; apply runs_ret].
    + intros acc'. apply IH. intros i Hi. apply Hrot. lia.
Qed.

(** C5: for a count of copies that is at least one, whenever
    [draw_polyline_pattern] returns, it returns as many shapes as copies,
    the first of them the given points, and only them when the count is
    one; it does return when a mode is set, the engine is quiet and the
    rotations are defined; with one copy it is the drawing of the given
    points followed by the return of the list that holds them alone; and
    in general the given points are drawn first, as they are, before the
    later copies are computed. *)
Theorem draw_polyline_pattern_shapes (points : list point) (center : option point)
    (repeat : Z) (s : session H) :
  (1 <= repeat)%Z ->
  (forall shapes s',
      draw_polyline_pattern points center repeat s = (Ok shapes, s') ->
      List.length shapes = Z.to_nat repeat
      /\ nth_error shapes 0 = Some points
      /\ (repeat = 1%Z -> shapes = [points]))
  /\ (ready s ->
      (forall i, 0 < i < Z.to_nat repeat ->
                 exists ps, rotated points center repeat i = Ok ps) ->
      exists shapes s',
        draw_polyline_pattern points center repeat s = (Ok shapes, s'))
  /\ draw_polyline_pattern points center 1 s
     = bind (draw_polyline points) (fun _ => ret [points]) s
  /\ draw_polyline_pattern points center repeat s
     = bind (draw_polyline points) (fun _ =>
         for_fold (seq 1 (Z.to_nat repeat - 1)) [points]
                  (pattern_step points center repeat)) s.
Proof.
  intros Hrepeat.
  rewrite draw_polyline_pattern_unfold by lia.
  destruct (Z.to_nat repeat) as [|n] eqn:En; [lia|].
  split; [|split; [|split]].
  - intros shapes s'. simpl. unfold bind at 1. unfold pattern_step at 1. simpl.
    unfold bind at 1.
    destruct (draw_polyline points s) as [[[]|e] s1]; [|discriminate].
    unfold ret at 1. intros Hrest.
    apply pattern_later_copies in Hrest as (extra & -> & Hlen).
    simpl. repeat split; [congruence|].
    intros ->. simpl in En. assert (n = 0) as -> by lia.
    destruct extra; [reflexivity | discriminate].
  - intros Hs Hrot.
    assert (runs (for_fold (seq 0 (S n)) [points] (pattern_step points center repeat)))
      as Hruns.
    { simpl. apply runs_bind.
      - unfold pattern_step. simpl.
        apply runs_bind; [apply runs_draw_polyline | intros _; apply runs_ret].
      - intros acc. apply runs_later_copies. intros i Hi. apply Hrot. lia. }
    destruct (Hruns s Hs) as (shapes & s' & E & _). now exists shapes, s'.
  - unfold draw_polyline_pattern. simpl. unfold pattern_step. simpl.
    unfold bind. destruct (draw_polyline points s) as [[[]|e] s1]; reflexivity.
  - replace (S n - 1) with n by lia. simpl. unfold pattern_step at 1. simpl.
    unfold bind. destruct (draw_polyline points s) as [[[]|e] s1]; reflexivity.
Qed.

(** C6: with zero copies [draw_polyline_pattern] raises
    [ZeroDivisionError] on its first line; nothing is drawn. *)
Theorem draw_polyline_pattern_zero (points : list point) (center : option point)
    (s : session H) :
  draw_polyline_pattern points center 0 s = (Raise ZeroDivisionError, s).
Proof. reflexivity. Qed.

End Pattern.

Section Encoding.

Context `{H : Host}.

Lemma append_assoc (a b c : string) : (a ++ b) ++ c = a ++ (b ++ c).
Proof. induction a as [|x a IH]; simpl; [reflexivity | now rewrite IH]. Qed.

Lemma read_text_app (t r : string) :
  has_char dquote t = false ->
  Literal.read_text (t ++ String dquote r) = Some (t, r).
Proof.
  induction t as [|c t IH]; simpl.
  - intros _. reflexivity.
  - intros Hc. apply orb_false_iff in Hc as [Hc Ht].
    rewrite Hc, (IH Ht). reflexivity.
Qed.

Lemma read_number_app (t r : string) :
  number_text t = true -> ends_number r = true ->
  Literal.read_number (t ++ r) = (t, r).
Proof.
  intros Ht Hr. induction t as [|c t IH]; simpl.
  - destruct r as [|c r]; [reflexivity|]. simpl in *.
    apply negb_true_iff in Hr. rewrite Hr. reflexivity.
  - simpl in Ht. apply andb_true_iff in Ht as [Hc Ht].
    rewrite Hc, (IH Ht). reflexivity.
Qed.

Lemma string_of_uint_number_text (d : Decimal.uint) :
  number_text (NilEmpty.string_of_uint d) = true.
Proof. induction d; simpl; auto. Qed.

Lemma str_int_number_text (z : Z) : number_text (str_int z) = true.
Proof.
  destruct z as [|p|p]; unfold str_int; simpl; [reflexivity | |].
  - destruct (Pos.to_uint p); try apply string_of_uint_number_text. reflexivity.
  - destruct (Pos.to_uint p); try apply string_of_uint_number_text. reflexivity.
Qed.

Lemma int_of_str_int (z : Z) :
  NilZero.int_of_string (str_int z) = Some (Z.to_int z).
Proof.
  unfold str_int. apply NilZero.isi; destruct z as [|p|p]; simpl;
    try discriminate; intros [= E]; now apply (Unsigned.to_uint_nonnil p).
Qed.

Lemma read_numeral_str_int (z : Z) :
  Literal.read_numeral (str_int z) = Some (AInt z).
Proof.
  unfold Literal.read_numeral. now rewrite int_of_str_int, DecimalZ.of_to.
Qed.

(** A numeral is not empty and does not start with a double quote. *)
Lemma numeral_head (t : string) (a : arg) :
  number_text t = true ->
  Literal.read_numeral t = Some a ->
  exists c rest, t = String c rest /\ Ascii.eqb c dquote = false.
Proof.
  intros Hn Hread. destruct t as [|c rest]; [discriminate|].
  exists c, rest. split; [reflexivity|].
  cbn [number_text] in Hn. apply andb_true_iff in Hn as [Hc _].
  destruct (Ascii.eqb_spec c dquote) as [->|]; [discriminate | reflexivity].
Qed.

(** A number does not start with a double quote, and is not empty. *)
Lemma str_int_head (z : Z) :
  exists c rest, str_int z = String c rest /\ Ascii.eqb c dquote = false.
Proof.
  exact (numeral_head _ _ (str_int_number_text z) (read_numeral_str_int z)).
Qed.

Lemma read_item_number (c : ascii) (s : string) :
  Ascii.eqb c dquote = false ->
  Literal.read_item (String c s)
  = let (t, r) := Literal.read_number (String c s) in
    match Literal.read_numeral t with
    | Some a => Some (a, r)
    | None => None
    end.
Proof. intros Hc. unfold Literal.read_item. rewrite Hc. reflexivity. Qed.

(** A numeral followed by what cannot go on a numeral is read as one
    literal. *)
Lemma read_item_numeral (t r : string) (a : arg) :
  number_text t = true ->
  Literal.read_numeral t = Some a ->
  ends_number r = true ->
  Literal.read_item (t ++ r) = Some (a, r).
Proof.
  intros Hn Hread Hr.
  destruct (numeral_head t a Hn Hread) as (c & rest & E & Hc).
  rewrite E. change (String c rest ++ r) with (String c (rest ++ r)).
  rewrite (read_item_number _ _ Hc).
  change (String c (rest ++ r)) with (String c rest ++ r). rewrite <- E.
  now rewrite (read_number_app _ _ Hn Hr), Hread.
Qed.

Lemma read_item_render (a : arg) (r : string) :
  readable a -> ends_number r = true ->
  Literal.read_item (render a ++ r) = Some (a, r).
Proof.
  intros Ha Hr. destruct a as [z|x|t]; cbn [readable render] in *.
  - exact (read_item_numeral _ r _ (str_int_number_text z)
             (read_numeral_str_int z) Hr).
  - destruct Ha as [Hn Hread]. exact (read_item_numeral _ r _ Hn Hread Hr).
  - unfold quote. rewrite append_assoc. cbn [append]. unfold Literal.read_item.
    rewrite Ascii.eqb_refl, (read_text_app _ _ Ha). reflexivity.
Qed.

(** A rendering does not start with a blank. *)
Lemma skip_blanks_render (a : arg) (r : string) :
  readable a -> Literal.skip_blanks (render a ++ r) = render a ++ r.
Proof.
  intros Ha.
  assert (exists c rest, render a = String c rest /\ Ascii.eqb c " " = false)
    as (c & rest & -> & Hc).
  { destruct a as [z|x|t]; cbn [readable render] in *.
    - pose proof (str_int_number_text z) as Hn.
      destruct (str_int_head z) as (c & rest & E & _). rewrite E in *.
      exists c, rest. split; [reflexivity|].
      cbn [number_text] in Hn. apply andb_true_iff in Hn as [Hc _].
      destruct (Ascii.eqb_spec c " ") as [->|]; [discriminate | reflexivity].
    - destruct Ha as [Hn Hread].
      destruct (numeral_head _ _ Hn Hread) as (c & rest & E & _). rewrite E in *.
      exists c, rest. split; [reflexivity|].
      cbn [number_text] in Hn. apply andb_true_iff in Hn as [Hc _].
      destruct (Ascii.eqb_spec c " ") as [->|]; [discriminate | reflexivity].
    - exists dquote, (t ++ String dquote EmptyString). split; reflexivity. }
  cbn [append Literal.skip_blanks]. now rewrite Hc.
Qed.

Lemma concat_render_cons (a b : arg) (args : list arg) :
  String.concat ", " (map render (a :: b :: args))
  = render a ++ ", " ++ String.concat ", " (map render (b :: args)).
Proof. reflexivity. Qed.

(** The text of a list that is not empty does not start with a blank. *)
Lemma skip_blanks_concat_render (args : list arg) (r : string) :
  args <> [] -> Forall readable args ->
  Literal.skip_blanks (String.concat ", " (map render args) ++ r)
  = String.concat ", " (map render args) ++ r.
Proof.
  intros Hne Hall. destruct args as [|a [|b args]]; [contradiction | |];
    inversion Hall; subst.
  - cbn [map String.concat]. now apply skip_blanks_render.
  - rewrite concat_render_cons, !append_assoc. now apply skip_blanks_render.
Qed.

Lemma read_items_render (args : list arg) (fuel : nat) :
  args <> [] -> List.length args <= fuel ->
  Forall readable args ->
  Literal.read_items fuel ")" (String.concat ", " (map render args) ++ ")")
  = Some args.
Proof.
  revert fuel. induction args as [|a args IH]; intros fuel Hne Hfuel Hall;
    [contradiction|].
  inversion Hall as [|a' args' Ha Hargs]; subst.
  destruct fuel as [|fuel]; [simpl in Hfuel; lia|].
  destruct args as [|b args].
  - simpl. rewrite (read_item_render a ")" Ha eq_refl). reflexivity.
  - rewrite concat_render_cons, !append_assoc.
    cbn [Literal.read_items].
    rewrite read_item_render by (assumption || reflexivity).
    cbn [append Literal.skip_blanks Ascii.eqb Bool.eqb].
    rewrite skip_blanks_concat_render by (assumption || discriminate).
    rewrite IH; [reflexivity | discriminate | simpl in *; lia | exact Hargs].
Qed.

Lemma length_append (a b : string) :
  String.length (a ++ b) = String.length a + String.length b.
Proof. induction a as [|c a IH]; simpl; [reflexivity | now rewrite IH]. Qed.

Lemma render_nonempty (a : arg) : readable a -> 1 <= String.length (render a).
Proof.
  destruct a as [z|x|t]; cbn [readable render].
  - intros _. destruct (str_int_head z) as (c & rest & -> & _). simpl. lia.
  - intros [Hn Hread].
    destruct (numeral_head _ _ Hn Hread) as (c & rest & -> & _). simpl. lia.
  - intros _. unfold quote. simpl. lia.
Qed.

Lemma length_concat_render (args : list arg) :
  Forall readable args ->
  S (List.length args)
  <= String.length (String.concat ", " (map render args) ++ ")").
Proof.
  induction args as [|a args IH]; intros Hall; [simpl; lia|].
  inversion Hall as [|a' args' Ha Hargs]; subst.
  pose proof (render_nonempty a Ha) as Hlen. specialize (IH Hargs).
  destruct args as [|b args].
  - simpl. rewrite length_append. simpl. lia.
  - change (String.concat ", " (map render (a :: b :: args)))
      with (render a ++ ", " ++ String.concat ", " (map render (b :: args))).
    rewrite !append_assoc, length_append. simpl in *. lia.
Qed.

(** The literal grammar undoes [_parse_args] on readable arguments. *)
Lemma parse_readable (args : list arg) :
  Forall readable args ->
  Literal.parse (_parse_args args) = Some args.
Proof.
  intros Hall.
  unfold Literal.parse, _parse_args, Literal.read_sequence.
  cbn [append Ascii.eqb Bool.eqb].
  destruct args as [|a args]; [reflexivity|].
  rewrite skip_blanks_concat_render by (assumption || discriminate).
  pose proof (length_concat_render (a :: args) Hall) as Hfuel.
  pose proof (read_items_render (a :: args) _ ltac:(discriminate)
                (Nat.lt_le_incl _ _ Hfuel) Hall) as Hread.
  destruct (String.concat ", " (map render (a :: args)) ++ ")")
    as [|c1 [|c2 rest]] eqn:E.
  - discriminate.
  - simpl in Hfuel. lia.
  - exact Hread.
Qed.

Lemma plain_readable (args : list arg) :
  forallb plain args = true -> Forall readable args.
Proof.
  induction args as [|a args IH]; intros Hplain; [constructor|].
  cbn [forallb] in Hplain. apply andb_true_iff in Hplain as [Ha Hargs].
  constructor; [|auto].
  destruct a as [z|x|t]; cbn [plain readable] in *;
    [exact I | discriminate | now apply negb_true_iff].
Qed.


(** C10: encoding the empty argument sequence gives the two characters
    of an empty parenthesised list. *)
Theorem parse_args_nil : _parse_args [] = "()" /\ String.length (_parse_args []) = 2.
Proof. split; reflexivity. Qed.

End Encoding.

Section Paths.

Lemma string_pair_ind (P : string -> Prop) :
  P EmptyString ->
  (forall c, P (String c EmptyString)) ->
  (forall c d r, P r -> P (String d r) -> P (String c (String d r))) ->
  forall s, P s.
Proof.
  intros H0 H1 H2 s.
  assert (P s /\ forall c, P (String c s)) as [Hs _]; [|exact Hs].
  induction s as [|d r [IHr IHdr]]; split; auto.
Qed.

Lemma prefix_cons (a b : ascii) (p s : string) :
  String.prefix (String a p) (String b s) = Ascii.eqb a b && String.prefix p s.
Proof.
  simpl. destruct (ascii_dec a b) as [->|Hab].
  - now rewrite Ascii.eqb_refl.
  - apply Ascii.eqb_neq in Hab. now rewrite Hab.
Qed.

Lemma prefix_nil (s : string) : String.prefix EmptyString s = true.
Proof. destruct s; reflexivity. Qed.

Lemma to_slash_slash (c : ascii) : Ascii.eqb "/"%char (to_slash c) = is_separator c.
Proof.
  unfold to_slash, is_separator.
  destruct (Ascii.eqb_spec c backslash) as [->|Hb].
  - reflexivity.
  - rewrite orb_false_r. apply Ascii.eqb_sym.
Qed.

Lemma to_slash_not_backslash (c : ascii) : Ascii.eqb (to_slash c) backslash = false.
Proof.
  unfold to_slash. destruct (Ascii.eqb_spec c backslash) as [->|Hb].
  - reflexivity.
  - now apply Ascii.eqb_neq.
Qed.

(** The equations of [_fix_path]. *)
Lemma fix_path_nil : _fix_path EmptyString = EmptyString.
Proof. reflexivity. Qed.

Lemma replace_backslash_cons (c : ascii) (s : string) :
  replace (String backslash EmptyString) "/" (String c s)
  = String (to_slash c) (replace (String backslash EmptyString) "/" s).
Proof.
  unfold replace, to_slash. cbn [replace_from].
  rewrite prefix_cons, prefix_nil, andb_true_r, (Ascii.eqb_sym backslash c).
  destruct (Ascii.eqb c backslash); reflexivity.
Qed.

Lemma replace_slashes_cons (c : ascii) (s : string) :
  replace "//" "/" (String c s)
  = match s with
    | String d r =>
        if Ascii.eqb "/"%char c && Ascii.eqb "/"%char d
        then String "/"%char (replace "//" "/" r)
        else String c (replace "//" "/" s)
    | EmptyString => String c EmptyString
    end.
Proof.
  unfold replace. cbn [replace_from].
  destruct s as [|d r].
  - rewrite prefix_cons. cbn [String.prefix]. now rewrite andb_false_r.
  - rewrite !prefix_cons, prefix_nil, andb_true_r.
    destruct (Ascii.eqb "/" c && Ascii.eqb "/" d); reflexivity.
Qed.

Lemma fix_path_one (c : ascii) :
  _fix_path (String c EmptyString) = String (to_slash c) EmptyString.
Proof.
  unfold _fix_path. rewrite replace_backslash_cons.
  change (replace (String backslash EmptyString) "/" EmptyString) with EmptyString.
  now rewrite replace_slashes_cons.
Qed.

Lemma fix_path_two (c d : ascii) (r : string) :
  _fix_path (String c (String d r))
  = if is_separator c && is_separator d
    then String "/"%char (_fix_path r)
    else String (to_slash c) (_fix_path (String d r)).
Proof.
  unfold _fix_path. rewrite !replace_backslash_cons, replace_slashes_cons.
  now rewrite !to_slash_slash.
Qed.

Lemma fix_path_head (s : string) :
  String.prefix "/" (_fix_path s) = starts_with_separators 1 s.
Proof.
  destruct s as [|c [|d r]].
  - reflexivity.
  - rewrite fix_path_one, prefix_cons, prefix_nil, to_slash_slash.
    reflexivity.
  - rewrite fix_path_two. cbn [starts_with_separators].
    destruct (is_separator c) eqn:Hc; destruct (is_separator d) eqn:Hd;
      cbn [andb]; rewrite prefix_cons, prefix_nil, ?to_slash_slash, ?Hc;
      reflexivity.
Qed.

Lemma fix_path_no_backslash (path : string) :
  has_char backslash (_fix_path path) = false.
Proof.
  induction path as [| |c d r IHr IHdr] using string_pair_ind.
  - reflexivity.
  - intros. rewrite fix_path_one. cbn [has_char].
    now rewrite to_slash_not_backslash.
  - rewrite fix_path_two.
    destruct (is_separator c && is_separator d); cbn [has_char].
    + exact IHr.
    + now rewrite to_slash_not_backslash, IHdr.
Qed.

Lemma contains_cons (a b c : ascii) (s : string) :
  contains (String a (String b EmptyString)) (String c s)
  = Ascii.eqb a c && String.prefix (String b EmptyString) s
    || contains (String a (String b EmptyString)) s.
Proof. cbn [contains]. now rewrite prefix_cons. Qed.

Lemma fix_path_double_slash (path : string) :
  contains "//" (_fix_path path) = has_separator_run 3 path.
Proof.
  induction path as [| |c d r IHr IHdr] using string_pair_ind.
  - reflexivity.
  - intros. rewrite fix_path_one, contains_cons.
    cbn [contains has_separator_run starts_with_separators String.prefix].
    now rewrite !andb_false_r.
  - rewrite fix_path_two.
    destruct (is_separator c) eqn:Hc; destruct (is_separator d) eqn:Hd;
      cbn [andb]; rewrite contains_cons, fix_path_head.
    + rewrite IHr. rewrite Ascii.eqb_refl.
      cbn [has_separator_run starts_with_separators].
      rewrite Hc, Hd. cbn [andb].
      destruct r as [|e r]; [reflexivity|].
      cbn [has_separator_run starts_with_separators].
      destruct (is_separator e); cbn [andb orb]; reflexivity.
    + rewrite IHdr, to_slash_slash, Hc.
      cbn [has_separator_run starts_with_separators andb orb].
      now rewrite Hc, Hd.
    + rewrite IHdr, to_slash_slash, Hc.
      cbn [has_separator_run starts_with_separators andb orb].
      now rewrite Hc.
    + rewrite IHdr, to_slash_slash, Hc.
      cbn [has_separator_run starts_with_separators andb orb].
      now rewrite Hc.
Qed.

(** C8, as the code has it: the normalised path holds no backslash, and
    it holds two slashes in a row exactly when the given path holds three
    separators in a row. *)
Theorem fix_path_separators (path : string) :
  has_char backslash (_fix_path path) = false
  /\ contains "//" (_fix_path path) = has_separator_run 3 path.
Proof.
  split; [apply fix_path_no_backslash | apply fix_path_double_slash].
Qed.

(** X25. The normalised working directory is what a new session submits. *)
Lemma init_submits `{H : Host} (e : engine) (cwd : string) :
  sent (snd (init e cwd))
  = ["setcurrentdirectory(" ++ quote (_fix_path cwd) ++ ")"].
Proof.
  unfold init, set_current_directory, call_femm, bind, to_femm, lift, new_session.
  cbn [femm sent doctype_prefix].
  destruct (mlab2femm e _) as [res e'].
  destruct (decode res); reflexivity.
Qed.

(** Three slashes are normalised to two. *)
Lemma fix_path_keeps_double_slash :
  _fix_path "///" = "//" /\ contains "//" (_fix_path "///") = true.
Proof. split; reflexivity. Qed.

End Paths.

(** * Further properties of the session *)

Section Documents.

Context `{H : Host}.

Lemma set_mode_missing_key (k : key) (s : session H) :
  (forall m, k <> KStr (name m) /\ k <> KInt (ordinal m)) ->
  set_mode k s = (Raise (KeyError k), s).
Proof.
  intros Hk. unfold set_mode.
  destruct k as [|z|n]; [reflexivity | |].
  - pose proof (Hk magnetics) as [_ H0]. pose proof (Hk electrostatics) as [_ H1].
    pose proof (Hk heat) as [_ H2]. pose proof (Hk current) as [_ H3].
    cbn [ordinal] in *. cbn [getitem DOCTYPE_PREFIX_MAPPING key_eqb].
    destruct (Z.eqb_spec 0 z); [congruence|].
    destruct (Z.eqb_spec 1 z); [congruence|].
    destruct (Z.eqb_spec 2 z); [congruence|].
    destruct (Z.eqb_spec 3 z); [congruence|]. reflexivity.
  - pose proof (Hk magnetics) as [H0 _]. pose proof (Hk electrostatics) as [H1 _].
    pose proof (Hk heat) as [H2 _]. pose proof (Hk current) as [H3 _].
    cbn [name] in *. cbn [getitem DOCTYPE_PREFIX_MAPPING key_eqb].
    destruct (String.eqb_spec "magnetics" n); [congruence|].
    destruct (String.eqb_spec "electrostatics" n); [congruence|].
    destruct (String.eqb_spec "heat" n); [congruence|].
    destruct (String.eqb_spec "current" n); [congruence|]. reflexivity.
Qed.

(** X2. A key that is none of the four names and none of the four ordinals is
    missing from [DOCTYPE_PREFIX_MAPPING]: [set_mode] raises [KeyError] on
    it and the session keeps the mode it had. *)
Theorem set_mode_unknown_key (k : key) (s : session H) :
  (forall m, k <> KStr (name m) /\ k <> KInt (ordinal m)) ->
  set_mode k s = (Raise (KeyError k), s).
Proof. apply set_mode_missing_key. Qed.

(** X3. Whenever [set_mode] returns, its key was the name or the ordinal of a
    physics domain, the [mode] property then reads the name of that
    domain, and neither the engine nor the log of commands has moved. *)
Theorem set_mode_success (k : key) (s s' : session H) :
  set_mode k s = (Ok tt, s') ->
  exists m, (k = KStr (name m) \/ k = KInt (ordinal m))
            /\ mode s' = (Ok (name m), s')
            /\ femm s' = femm s /\ sent s' = sent s.
Proof.
  unfold set_mode. destruct k as [|z|n]; [discriminate | |];
    cbn [getitem DOCTYPE_PREFIX_MAPPING key_eqb].
  - destruct (Z.eqb_spec 0 z) as [<-|_];
      [intros [= <-]; exists magnetics; repeat split; auto|].
    destruct (Z.eqb_spec 1 z) as [<-|_];
      [intros [= <-]; exists electrostatics; repeat split; auto|].
    destruct (Z.eqb_spec 2 z) as [<-|_];
      [intros [= <-]; exists heat; repeat split; auto|].
    destruct (Z.eqb_spec 3 z) as [<-|_];
      [intros [= <-]; exists current; repeat split; auto|].
    discriminate.
  - destruct (String.eqb_spec "magnetics" n) as [<-|_];
      [intros [= <-]; exists magnetics; repeat split; auto|].
    destruct (String.eqb_spec "electrostatics" n) as [<-|_];
      [intros [= <-]; exists electrostatics; repeat split; auto|].
    destruct (String.eqb_spec "heat" n) as [<-|_];
      [intros [= <-]; exists heat; repeat split; auto|].
    destruct (String.eqb_spec "current" n) as [<-|_];
      [intros [= <-]; exists current; repeat split; auto|].
    discriminate.
Qed.

(** Before any mode is set the [mode] property raises [KeyError] on
    [None]. *)
Lemma mode_unset (s : session H) :
  doctype_prefix s = None -> mode s = (Raise (KeyError KNone), s).
Proof. intros Hnone. unfold mode. now rewrite Hnone. Qed.

(** X4. A name that [DOCTYPE_MAPPING] does not hold makes [new_document]
    raise [KeyError] before anything is submitted. *)
Theorem new_document_unknown_name (n : string) (s : session H) :
  (forall m, n <> name m) ->
  new_document (KStr n) s = (Raise (KeyError (KStr n)), s).
Proof.
  intros Hn. unfold new_document, bind, lift.
  pose proof (Hn magnetics) as H0. pose proof (Hn electrostatics) as H1.
  pose proof (Hn heat) as H2. pose proof (Hn current) as H3.
  cbn [name] in *. cbn [getitem DOCTYPE_MAPPING key_eqb].
  destruct (String.eqb_spec "magnetics" n); [congruence|].
  destruct (String.eqb_spec "electrostatics" n); [congruence|].
  destruct (String.eqb_spec "heat" n); [congruence|].
  destruct (String.eqb_spec "current" n); [congruence|]. reflexivity.
Qed.

(** The command [new_document] submits for an ordinal. *)
Lemma new_document_ordinal_run (z : Z) (s : session H) (res : string) (e : engine) :
  mlab2femm (femm s) ("newdocument(" ++ str_int z ++ ")") = (res, e) ->
  new_document (KInt z) s
  = match decode res with
    | Ok _ => set_mode (KInt z) (submitted s ("newdocument(" ++ str_int z ++ ")") e)
    | Raise x => (Raise x, submitted s ("newdocument(" ++ str_int z ++ ")") e)
    end.
Proof.
  intros Hreply. unfold new_document, bind at 1, lift at 1. unfold bind at 1.
  cbn [str_key].
  rewrite (call_femm_submission s _ _ res false e eq_refl Hreply).
  destruct (decode res); reflexivity.
Qed.

(** X5. When the engine answers [newdocument] with an error, [new_document]
    raises with that answer and the mode of the session is unchanged. *)
Theorem new_document_engine_error (z : Z) (s : session H) (rest : string)
    (e : engine) :
  mlab2femm (femm s) ("newdocument(" ++ str_int z ++ ")") = (String "e" rest, e) ->
  new_document (KInt z) s
  = (Raise (Exception (String "e" rest)),
     submitted s ("newdocument(" ++ str_int z ++ ")") e)
  /\ doctype_prefix (snd (new_document (KInt z) s)) = doctype_prefix s.
Proof.
  intros Hreply. rewrite (new_document_ordinal_run z s _ e Hreply), decode_error.
  split; reflexivity.
Qed.

(** X6. Opening a document by the ordinal of a domain, on an engine whose
    answer decodes, submits the one command [newdocument(ordinal)] and
    leaves a session whose [mode] is the name of the domain. *)
Theorem new_document_by_ordinal (m : physics) (s : session H) (res : string)
    (e : engine) (v : value) :
  mlab2femm (femm s) ("newdocument(" ++ str_int (ordinal m) ++ ")") = (res, e) ->
  decode res = Ok v ->
  exists s',
    new_document (KInt (ordinal m)) s = (Ok tt, s')
    /\ mode s' = (Ok (name m), s')
    /\ sent s' = (sent s ++ [("newdocument(" ++ str_int (ordinal m) ++ ")")%string])%list
    /\ femm s' = e.
Proof.
  intros Hreply Hv. rewrite (new_document_ordinal_run _ s _ e Hreply), Hv.
  destruct m; eexists; repeat split.
Qed.

(** X7. An ordinal outside 0..3 is submitted to the engine all the same; the
    [KeyError] comes afterwards, from [set_mode], and the mode of the
    session is unchanged. *)
Theorem new_document_bad_ordinal (z : Z) (s : session H) (res : string)
    (e : engine) (v : value) :
  ~ (0 <= z <= 3)%Z ->
  mlab2femm (femm s) ("newdocument(" ++ str_int z ++ ")") = (res, e) ->
  decode res = Ok v ->
  new_document (KInt z) s
  = (Raise (KeyError (KInt z)), submitted s ("newdocument(" ++ str_int z ++ ")") e).
Proof.
  intros Hz Hreply Hv. rewrite (new_document_ordinal_run z s _ e Hreply), Hv.
  apply set_mode_missing_key. intros m. split; [discriminate|].
  intros [= ->]. destruct m; cbn [ordinal] in Hz; lia.
Qed.

(** X1. Prefixing the command and then appending the arguments, as
    [call_femm_with_args] does, submits what [call_femm] submits for the
    command with its arguments. *)
Theorem call_femm_with_args_as_call_femm (command : string) (args : list arg)
    (add_doctype_prefix : bool) (s : session H) :
  call_femm_with_args command args add_doctype_prefix s
  = call_femm (command ++ _parse_args args) add_doctype_prefix s.
Proof.
  unfold call_femm_with_args, call_femm. destruct add_doctype_prefix; [|reflexivity].
  unfold bind, _add_doctype_prefix.
  destruct (doctype_prefix s) as [p|]; [|reflexivity].
  now rewrite append_assoc.
Qed.

End Documents.

Section Frame.

Context `{H : Host}.

Lemma keeps_mode_ret {A} (a : A) : keeps_mode (ret a).
Proof. intros s. reflexivity. Qed.

Lemma keeps_mode_raise {A} (e : exc) : keeps_mode (raise (A := A) e).
Proof. intros s. reflexivity. Qed.

Lemma keeps_mode_lift {A} (r : result A) : keeps_mode (lift r).
Proof. intros s. reflexivity. Qed.

Lemma keeps_mode_bind {A B} (m : M A) (k : A -> M B) :
  keeps_mode m -> (forall a, keeps_mode (k a)) -> keeps_mode (bind m k).
Proof.
  intros Hm Hk s. unfold bind. specialize (Hm s).
  destruct (m s) as [[a|e] s1]; cbn [snd] in *.
  - now rewrite Hk.
  - exact Hm.
Qed.

Lemma keeps_mode_for_each {A} (l : list A) (body : A -> M unit) :
  (forall x, keeps_mode (body x)) -> keeps_mode (for_each l body).
Proof.
  intros Hbody. induction l as [|x l IH]; cbn [for_each].
  - apply keeps_mode_ret.
  - apply keeps_mode_bind; auto.
Qed.

Lemma keeps_mode_for_fold {A B} (l : list A) (acc : B) (body : A -> B -> M B) :
  (forall x b, keeps_mode (body x b)) -> keeps_mode (for_fold l acc body).
Proof.
  intros Hbody. revert acc. induction l as [|x l IH]; intros acc; cbn [for_fold].
  - apply keeps_mode_ret.
  - apply keeps_mode_bind; auto.
Qed.

Lemma keeps_mode_add_doctype_prefix (string : string) :
  keeps_mode (_add_doctype_prefix string).
Proof.
  intros s. unfold _add_doctype_prefix.
  destruct (doctype_prefix s) eqn:E; cbn [snd]; exact E.
Qed.

Lemma keeps_mode_to_femm (string : string) : keeps_mode (to_femm string).
Proof.
  intros s. unfold to_femm. destruct (mlab2femm (femm s) string). reflexivity.
Qed.

Lemma keeps_mode_call_femm (string : string) (add_doctype_prefix : bool) :
  keeps_mode (call_femm string add_doctype_prefix).
Proof.
  unfold call_femm. apply keeps_mode_bind; [|intros; apply keeps_mode_lift].
  destruct add_doctype_prefix; [|apply keeps_mode_to_femm].
  apply keeps_mode_bind;
    [apply keeps_mode_add_doctype_prefix | intros; apply keeps_mode_to_femm].
Qed.

Lemma keeps_mode_call_femm_with_args (command : string) (args : list arg)
    (add_doctype_prefix : bool) :
  keeps_mode (call_femm_with_args command args add_doctype_prefix).
Proof.
  unfold call_femm_with_args.
  destruct add_doctype_prefix; [|apply keeps_mode_call_femm].
  apply keeps_mode_bind;
    [apply keeps_mode_add_doctype_prefix | intros; apply keeps_mode_call_femm].
Qed.

(** Closes a goal [keeps_mode m] for a method built from the calls above. *)
Ltac keeps_mode :=
  repeat first
    [ apply keeps_mode_ret | apply keeps_mode_raise | apply keeps_mode_lift
    | apply keeps_mode_call_femm | apply keeps_mode_call_femm_with_args
    | apply keeps_mode_bind; [|intros] ].

Lemma keeps_mode_add_node (x y : arg) : keeps_mode (add_node x y).
Proof. unfold add_node, _call_femm_with_args. keeps_mode. Qed.

Lemma keeps_mode_draw_line (x1 y1 x2 y2 : arg) : keeps_mode (draw_line x1 y1 x2 y2).
Proof.
  unfold draw_line, add_segment, _call_femm_with_args.
  repeat (apply keeps_mode_bind; [apply keeps_mode_add_node | intros]).
  keeps_mode.
Qed.

Lemma keeps_mode_draw_arc (x1 y1 x2 y2 angle max_seg : arg) :
  keeps_mode (draw_arc x1 y1 x2 y2 angle max_seg).
Proof.
  unfold draw_arc, add_arc, _call_femm_with_args.
  repeat (apply keeps_mode_bind; [apply keeps_mode_add_node | intros]).
  keeps_mode.
Qed.

Lemma keeps_mode_draw_polyline (points_list : list point) :
  keeps_mode (draw_polyline points_list).
Proof.
  unfold draw_polyline. apply keeps_mode_for_each. intros [i current_point].
  apply keeps_mode_bind; [apply keeps_mode_add_node | intros _].
  destruct (Nat.ltb 0 i && Nat.ltb i (List.length points_list));
    [|apply keeps_mode_ret].
  destruct (nth_error points_list (i - 1));
    [apply keeps_mode_draw_line | apply keeps_mode_raise].
Qed.

Lemma keeps_mode_draw_polygon (points_list : list point) :
  keeps_mode (draw_polygon points_list).
Proof.
  unfold draw_polygon.
  apply keeps_mode_bind; [apply keeps_mode_draw_polyline | intros _].
  destruct (nth_error points_list 0); [|apply keeps_mode_raise].
  destruct (nth_error (rev points_list) 0);
    [apply keeps_mode_draw_line | apply keeps_mode_raise].
Qed.

Lemma keeps_mode_draw_rectangle (x1 y1 x2 y2 : arg) :
  keeps_mode (draw_rectangle x1 y1 x2 y2).
Proof.
  unfold draw_rectangle.
  repeat (apply keeps_mode_bind; [apply keeps_mode_draw_line | intros _]).
  apply keeps_mode_draw_line.
Qed.

Lemma keeps_mode_draw_polyline_pattern (points : list point)
    (center : option point) (repeat : Z) :
  keeps_mode (draw_polyline_pattern points center repeat).
Proof.
  unfold draw_polyline_pattern.
  destruct (Z.eqb repeat 0); [apply keeps_mode_raise|].
  apply keeps_mode_for_fold. intros i acc. unfold pattern_step.
  destruct (Nat.eqb i 0).
  - apply keeps_mode_bind; [apply keeps_mode_draw_polyline | intros; keeps_mode].
  - apply keeps_mode_bind; [apply keeps_mode_lift | intros new_points].
    apply keeps_mode_bind; [apply keeps_mode_draw_polyline | intros; keeps_mode].
Qed.

Lemma keeps_mode_draw_arc_pattern (x1 y1 x2 y2 angle max_seg : arg)
    (center : option point) (repeat : Z) :
  keeps_mode (draw_arc_pattern x1 y1 x2 y2 angle max_seg center repeat).
Proof.
  unfold draw_arc_pattern.
  destruct (Z.eqb repeat 0); [apply keeps_mode_raise|].
  apply keeps_mode_for_each. intros i. unfold arc_pattern_step.
  destruct (Nat.eqb i 0); [apply keeps_mode_draw_arc|].
  apply keeps_mode_bind; [apply keeps_mode_lift | intros new_points].
  destruct (nth_error new_points 0); [|apply keeps_mode_raise].
  destruct (nth_error new_points 1);
    [apply keeps_mode_draw_arc | apply keeps_mode_raise].
Qed.

(** X8. Only [set_mode] assigns the mode: the submission of a command, with
    or without arguments, every drawing helper and the one-line wrappers
    leave [doctype_prefix] as it was, whether they return or raise. *)
Theorem drawing_keeps_mode :
  (forall string b, keeps_mode (call_femm string b))
  /\ (forall command args b, keeps_mode (call_femm_with_args command args b))
  /\ (forall points_list, keeps_mode (draw_polyline points_list))
  /\ (forall points_list, keeps_mode (draw_polygon points_list))
  /\ (forall x1 y1 x2 y2, keeps_mode (draw_rectangle x1 y1 x2 y2))
  /\ (forall points center repeat,
        keeps_mode (draw_polyline_pattern points center repeat))
  /\ (forall x1 y1 x2 y2 angle max_seg center repeat,
        keeps_mode (draw_arc_pattern x1 y1 x2 y2 angle max_seg center repeat))
  /\ keeps_mode quit /\ keeps_mode close /\ keeps_mode delete_selected
  /\ keeps_mode zoom_natural
  /\ (forall x1 y1 x2 y2, keeps_mode (zoom x1 y1 x2 y2))
  /\ (forall x y, keeps_mode (add_block_label x y)).
Proof.
  split; [exact keeps_mode_call_femm|].
  split; [exact keeps_mode_call_femm_with_args|].
  split; [exact keeps_mode_draw_polyline|].
  split; [exact keeps_mode_draw_polygon|].
  split; [exact keeps_mode_draw_rectangle|].
  split; [exact keeps_mode_draw_polyline_pattern|].
  split; [exact keeps_mode_draw_arc_pattern|].
  unfold quit, close, delete_selected, zoom_natural, zoom, add_block_label,
    _call_femm, _call_femm_with_args.
  repeat split; intros; keeps_mode.
Qed.

End Frame.

Section Drawing.

Context `{H : Host}.

Lemma sends_ret {A} (a : A) : sends 0 (ret a).
Proof. intros s Hs. exists a, s. repeat split; [apply Hs | apply Hs | lia]. Qed.

Lemma sends_bind {A B} (j k : nat) (m : M A) (f : A -> M B) :
  sends j m -> (forall a, sends k (f a)) -> sends (j + k) (bind m f).
Proof.
  intros Hm Hf s Hs. destruct (Hm s Hs) as (a & s1 & Em & Hs1 & L1).
  destruct (Hf a s1 Hs1) as (b & s2 & Ef & Hs2 & L2).
  exists b, s2. unfold bind. rewrite Em. repeat split; [exact Ef | apply Hs2 | apply Hs2 | lia].
Qed.

Lemma sends_count {A} (j k : nat) (m : M A) : j = k -> sends j m -> sends k m.
Proof. now intros ->. Qed.

Lemma sends_for_each {A} (f : A -> nat) (l : list A) (body : A -> M unit) :
  (forall x, In x l -> sends (f x) (body x)) ->
  sends (list_sum (map f l)) (for_each l body).
Proof.
  induction l as [|x l IH]; intros Hbody; cbn [for_each map list_sum].
  - apply sends_ret.
  - apply sends_bind.
    + apply Hbody. now left.
    + intros _. apply IH. intros y Hy. apply Hbody. now right.
Qed.

Lemma sends_for_fold {A B} (f : A -> nat) (l : list A) (acc : B)
    (body : A -> B -> M B) :
  (forall x b, In x l -> sends (f x) (body x b)) ->
  sends (list_sum (map f l)) (for_fold l acc body).
Proof.
  revert acc. induction l as [|x l IH]; intros acc Hbody;
    cbn [for_fold map list_sum].
  - apply sends_ret.
  - apply sends_bind.
    + apply Hbody. now left.
    + intros acc'. apply IH. intros y b Hy. apply Hbody. now right.
Qed.

Lemma sends_call_femm (string : string) : sends 1 (call_femm string false).
Proof.
  intros s [Hp Hq]. unfold call_femm, bind, to_femm, lift.
  pose proof (Hq [] string) as Hreply. cbn [after] in Hreply.
  pose proof (quiet_step (femm s) string Hq) as Hq'.
  destruct (mlab2femm (femm s) string) as [res e]. cbn [fst snd] in *.
  subst res. eexists _, _. split; [reflexivity|].
  repeat split; [exact Hp | exact Hq' |].
  cbn [sent]. rewrite length_app. reflexivity.
Qed.

Lemma sends_call_femm_with_args (command : string) (args : list arg) :
  sends 1 (call_femm_with_args command args true).
Proof.
  intros s Hs. pose proof Hs as [[p Hp] _].
  unfold call_femm_with_args, bind, _add_doctype_prefix. rewrite Hp.
  now apply sends_call_femm.
Qed.

Lemma sends_add_node (x y : arg) : sends 1 (add_node x y).
Proof.
  apply (sends_bind 1 0); [apply sends_call_femm_with_args | intros; apply sends_ret].
Qed.

Lemma sends_add_segment (x1 y1 x2 y2 : arg) : sends 1 (add_segment x1 y1 x2 y2).
Proof.
  apply (sends_bind 1 0); [apply sends_call_femm_with_args | intros; apply sends_ret].
Qed.

Lemma sends_add_arc (x1 y1 x2 y2 angle max_seg : arg) :
  sends 1 (add_arc x1 y1 x2 y2 angle max_seg).
Proof.
  apply (sends_bind 1 0); [apply sends_call_femm_with_args | intros; apply sends_ret].
Qed.

Lemma sends_draw_line (x1 y1 x2 y2 : arg) : sends 3 (draw_line x1 y1 x2 y2).
Proof.
  unfold draw_line.
  apply (sends_bind 1 2); [apply sends_add_node | intros _].
  apply (sends_bind 1 1); [apply sends_add_node | intros _].
  apply sends_add_segment.
Qed.

Lemma sends_draw_arc (x1 y1 x2 y2 angle max_seg : arg) :
  sends 3 (draw_arc x1 y1 x2 y2 angle max_seg).
Proof.
  unfold draw_arc.
  apply (sends_bind 1 2); [apply sends_add_node | intros _].
  apply (sends_bind 1 1); [apply sends_add_node | intros _].
  apply sends_add_arc.
Qed.

Lemma list_sum_cons (a : nat) (l : list nat) : list_sum (a :: l) = a + list_sum l.
Proof. reflexivity. Qed.

Lemma polyline_commands_later {A} (l : list A) (k : nat) :
  list_sum (map (fun ix => polyline_commands (fst ix))
              (combine (seq (S k) (List.length l)) l))
  = 4 * List.length l.
Proof.
  revert k. induction l as [|x l IH]; intros k; [reflexivity|].
  cbn [List.length seq combine map fst]. rewrite list_sum_cons, IH.
  unfold polyline_commands. cbn [Nat.eqb]. lia.
Qed.

Lemma polyline_commands_sum {A} (l : list A) :
  list_sum (map (fun ix => polyline_commands (fst ix)) (enumerate l))
  = 4 * List.length l - 3.
Proof.
  destruct l as [|x l]; [reflexivity|]. unfold enumerate.
  cbn [List.length seq combine map fst].
  rewrite list_sum_cons, polyline_commands_later.
  unfold polyline_commands. cbn [Nat.eqb]. lia.
Qed.

Lemma sends_draw_polyline (points_list : list point) :
  sends (4 * List.length points_list - 3) (draw_polyline points_list).
Proof.
  apply (sends_count _ _ _ (polyline_commands_sum points_list)).
  apply sends_for_each. intros [i current_point] Hin.
  apply in_enumerate in Hin. cbn [fst]. unfold polyline_commands.
  destruct i as [|i]; cbn [Nat.eqb].
  - apply (sends_bind 1 0); [apply sends_add_node | intros _; apply sends_ret].
  - apply (sends_bind 1 3); [apply sends_add_node | intros _].
    assert (Nat.ltb 0 (S i) && Nat.ltb (S i) (List.length points_list) = true)
      as -> by (apply andb_true_iff; split; apply Nat.ltb_lt; lia).
    destruct (nth_error points_list (S i - 1)) as [previous_point|] eqn:E.
    + apply sends_draw_line.
    + apply nth_error_None in E. lia.
Qed.

(** X9. On a session with a mode and a quiet engine, [draw_polyline] returns
    after submitting four commands for every point but the first, which
    takes one: [4 * n - 3] commands for [n] points, none for no point. *)
Theorem draw_polyline_commands (points_list : list point) (s : session H) :
  ready s ->
  exists s',
    draw_polyline points_list s = (Ok tt, s')
    /\ List.length (sent s')
       = List.length (sent s) + (4 * List.length points_list - 3).
Proof.
  intros Hs. destruct (sends_draw_polyline points_list s Hs) as ([] & s' & E & _ & L).
  now exists s'.
Qed.

Lemma nth_error_rev_0 {A} (l : list A) (d : A) :
  l <> [] -> nth_error (rev l) 0 = Some (last l d).
Proof.
  induction l as [|a l IH]; intros Hne; [contradiction|].
  destruct l as [|b l]; [reflexivity|].
  cbn [rev] in *. rewrite nth_error_app1.
  - rewrite IH by discriminate. reflexivity.
  - rewrite length_app. cbn [List.length]. lia.
Qed.

(** X11. [draw_polygon] on no point draws nothing and raises [IndexError]; on
    at least one point it is the polyline followed by the line from the
    first point to the last. *)
Theorem draw_polygon_closes (points_list : list point) (s : session H) :
  (points_list = [] -> draw_polygon points_list s = (Raise IndexError, s))
  /\ (forall first rest, points_list = first :: rest ->
        draw_polygon points_list s
        = bind (draw_polyline points_list) (fun _ =>
            draw_line (fst first) (snd first)
                      (fst (last points_list first))
                      (snd (last points_list first))) s).
Proof.
  split.
  - intros ->. reflexivity.
  - intros first rest ->. unfold draw_polygon.
    rewrite (nth_error_rev_0 (first :: rest) first) by discriminate.
    reflexivity.
Qed.

(** X12. On a session with a mode and a quiet engine, [draw_polygon] on [n]
    points, [n] at least one, returns after submitting [4 * n]
    commands. *)
Theorem draw_polygon_commands (points_list : list point) (s : session H) :
  ready s -> points_list <> [] ->
  exists s',
    draw_polygon points_list s = (Ok tt, s')
    /\ List.length (sent s') = List.length (sent s) + 4 * List.length points_list.
Proof.
  intros Hs Hne.
  assert (sends (4 * List.length points_list) (draw_polygon points_list)) as Hsends.
  { destruct points_list as [|first rest]; [contradiction|].
    unfold draw_polygon.
    rewrite (nth_error_rev_0 (first :: rest) first) by discriminate.
    cbn [nth_error].
    apply (sends_count (4 * List.length (first :: rest) - 3 + 3));
      [cbn [List.length]; lia|].
    apply sends_bind; [apply sends_draw_polyline | intros _; apply sends_draw_line]. }
  destruct (Hsends s Hs) as ([] & s' & E & _ & L). now exists s'.
Qed.

(** X10. The engine's first error ends [draw_polyline]: when the answer to the
    first [addnode] is an error, the method raises with it and that
    command is the only one submitted. *)
Theorem draw_polyline_stops_at_error (p : string) (pt : point)
    (more : list point) (s : session H) (rest : string) (e : engine) :
  doctype_prefix s = Some p ->
  mlab2femm (femm s) ((p ++ "i_addnode") ++ _parse_args [fst pt; snd pt])
    = (String "e" rest, e) ->
  draw_polyline (pt :: more) s
  = (Raise (Exception (String "e" rest)),
     submitted s ((p ++ "i_addnode") ++ _parse_args [fst pt; snd pt]) e).
Proof.
  intros Hp Hreply. unfold draw_polyline, enumerate.
  cbn [List.length seq combine for_each]. unfold bind at 1. unfold bind at 1.
  unfold add_node, _call_femm_with_args, call_femm_with_args.
  unfold bind at 1. unfold bind at 1. unfold _add_doctype_prefix. rewrite Hp.
  cbn [_add_mode_prefix mode_prefix str_key append].
  rewrite (call_femm_submission s _ _ _ false e eq_refl Hreply), decode_error.
  reflexivity.
Qed.

End Drawing.

Section Copies.

Context `{H : Host}.

Lemma sends_after_lift {A B} (k : nat) (a : A) (f : A -> M B) :
  sends k (f a) -> sends k (bind (lift (Ok a)) f).
Proof. intros Hf s Hs. unfold bind, lift. now apply Hf. Qed.

Lemma list_sum_constant {A} (c : nat) (l : list A) :
  list_sum (map (fun _ => c) l) = List.length l * c.
Proof.
  induction l as [|x l IH]; [reflexivity|].
  cbn [map List.length]. rewrite list_sum_cons, IH. lia.
Qed.

(** The later copies are the rotations, in the order of their index. *)
Lemma pattern_later_rotations (points : list point) (center : option point)
    (repeat : Z) (n k : nat) (acc shapes : list (list point)) (s s' : session H) :
  for_fold (seq (S k) n) acc (pattern_step points center repeat) s = (Ok shapes, s') ->
  exists extra,
    shapes = (acc ++ extra)%list
    /\ Forall2 (fun i ps => rotated points center repeat i = Ok ps)
               (seq (S k) n) extra.
Proof.
  revert k acc s. induction n as [|n IH]; intros k acc s; cbn [seq for_fold].
  - intros [= <- <-]. exists []. split; [now rewrite app_nil_r | constructor].
  - unfold bind at 1. unfold pattern_step at 1. cbn [Nat.eqb].
    unfold bind at 1, lift.
    destruct (rotated points center repeat (S k)) as [new_points|x] eqn:E;
      [|discriminate].
    unfold bind at 1.
    destruct (draw_polyline new_points s) as [[[]|x] s1]; [|discriminate].
    unfold ret at 1. intros Hrest. apply IH in Hrest as (extra & -> & Hall).
    exists (new_points :: extra). rewrite <- app_assoc. split; [reflexivity|].
    constructor; assumption.
Qed.

Lemma Forall2_seq_nth {A} (P : nat -> A -> Prop) (n a : nat) (l : list A) :
  Forall2 P (seq a n) l ->
  forall j, j < n -> exists x, nth_error l j = Some x /\ P (a + j) x.
Proof.
  revert a l. induction n as [|n IH]; intros a l Hall j Hj; [lia|].
  cbn [seq] in Hall. inversion Hall as [|i x tl xs Hx Hxs]; subst.
  destruct j as [|j].
  - exists x. rewrite Nat.add_0_r. auto.
  - destruct (IH (S a) xs Hxs j) as (y & Hy & Py); [lia|].
    exists y. split; [exact Hy|]. now replace (a + S j) with (S a + j) by lia.
Qed.

(** X13. Whenever [draw_polyline_pattern] returns, the shape at every index
    after the first is what lines 157 to 163 gave for that index from the
    points as given, the center and the count: each copy is computed from
    the original, stored unchanged and kept in the order of the indices.
    What those lines compute is the host's. *)
Theorem draw_polyline_pattern_copies (points : list point) (center : option point)
    (repeat : Z) (s s' : session H) (shapes : list (list point)) (i : nat) :
  draw_polyline_pattern points center repeat s = (Ok shapes, s') ->
  0 < i < Z.to_nat repeat ->
  exists ps, nth_error shapes i = Some ps
             /\ rotated points center repeat i = Ok ps.
Proof.
  intros Hrun Hi. destruct (Z.eqb_spec repeat 0) as [->|Hz]; [cbn in Hi; lia|].
  rewrite (draw_polyline_pattern_unfold _ _ _ Hz) in Hrun.
  destruct (Z.to_nat repeat) as [|n]; [lia|].
  cbn [seq for_fold] in Hrun. unfold bind at 1 in Hrun.
  unfold pattern_step at 1 in Hrun. cbn [Nat.eqb] in Hrun.
  unfold bind at 1 in Hrun.
  destruct (draw_polyline points s) as [[[]|x] s1]; [|discriminate].
  unfold ret at 1 in Hrun.
  apply pattern_later_rotations in Hrun as (extra & -> & Hall).
  destruct i as [|i]; [lia|].
  destruct (Forall2_seq_nth _ _ _ _ Hall i) as (ps & Hps & Hrot); [lia|].
  exists ps. split; [exact Hps | exact Hrot].
Qed.

(** X14. When the rotation of the first copy is not defined (numpy raises, as
    it does without a center), [draw_polyline_pattern] for two copies or
    more has drawn the given points and then raises: no shape is
    returned. *)
Theorem draw_polyline_pattern_rotation_fails (points : list point)
    (center : option point) (repeat : Z) (x : exc) (s : session H) :
  (2 <= repeat)%Z ->
  rotated points center repeat 1 = Raise x ->
  draw_polyline_pattern points center repeat s
  = bind (draw_polyline points) (fun _ => raise x) s.
Proof.
  intros Hrepeat Hrot. rewrite draw_polyline_pattern_unfold by lia.
  destruct (Z.to_nat repeat) as [|[|n]] eqn:En; [lia | lia |].
  cbn [seq for_fold]. unfold bind at 1. unfold pattern_step at 1. cbn [Nat.eqb].
  unfold bind.
  destruct (draw_polyline points s) as [[[]|y] s1]; [|reflexivity].
  unfold ret at 1. unfold pattern_step at 1. cbn [Nat.eqb].
  unfold lift. rewrite Hrot. reflexivity.
Qed.

(** X15. On a session with a mode and a quiet engine, and with rotations that
    keep the number of points, [draw_polyline_pattern] submits the
    commands of one polyline for every copy. *)
Theorem draw_polyline_pattern_commands (points : list point)
    (center : option point) (repeat : Z) (s : session H) :
  ready s ->
  (1 <= repeat)%Z ->
  (forall i, 0 < i < Z.to_nat repeat ->
     exists ps, rotated points center repeat i = Ok ps
                /\ List.length ps = List.length points) ->
  exists shapes s',
    draw_polyline_pattern points center repeat s = (Ok shapes, s')
    /\ List.length (sent s')
       = List.length (sent s)
         + Z.to_nat repeat * (4 * List.length points - 3).
Proof.
  intros Hs Hrepeat Hrot. rewrite draw_polyline_pattern_unfold by lia.
  assert (sends (Z.to_nat repeat * (4 * List.length points - 3))
            (for_fold (seq 0 (Z.to_nat repeat)) [points]
               (pattern_step points center repeat))) as Hsends.
  { eapply sends_count;
      [|apply (sends_for_fold (fun _ => 4 * List.length points - 3))].
    - now rewrite list_sum_constant, length_seq.
    - intros i acc Hin. apply in_seq in Hin. unfold pattern_step.
      destruct i as [|i]; cbn [Nat.eqb].
      + eapply sends_count; [|apply sends_bind;
          [apply sends_draw_polyline | intros _; apply sends_ret]]. lia.
      + destruct (Hrot (S i)) as (ps & -> & Hlen); [lia|].
        apply sends_after_lift.
        eapply sends_count; [|apply sends_bind;
          [apply sends_draw_polyline | intros _; apply sends_ret]].
        unfold point in *. lia. }
  destruct (Hsends s Hs) as (shapes & s' & E & _ & L). now exists shapes, s'.
Qed.

(** X16. With no copy to make nothing is drawn by either pattern helper: a
    count of zero raises [ZeroDivisionError], a negative count returns
    (the list of the given points alone, for the polyline helper). *)
Theorem patterns_without_copies (points : list point)
    (x1 y1 x2 y2 angle max_seg : arg) (center : option point) (repeat : Z)
    (s : session H) :
  (repeat <= 0)%Z ->
  draw_polyline_pattern points center repeat s
    = (if Z.eqb repeat 0 then Raise ZeroDivisionError else Ok [points], s)
  /\ draw_arc_pattern x1 y1 x2 y2 angle max_seg center repeat s
    = (if Z.eqb repeat 0 then Raise ZeroDivisionError else Ok tt, s).
Proof.
  intros Hrepeat. unfold draw_polyline_pattern, draw_arc_pattern.
  destruct (Z.eqb_spec repeat 0) as [->|Hz]; [split; reflexivity|].
  replace (Z.to_nat repeat) with 0 by lia. split; reflexivity.
Qed.

(** X17. On a session with a mode and a quiet engine, and with rotations that
    give the two end points, [draw_arc_pattern] returns after submitting
    three commands for every copy. *)
Theorem draw_arc_pattern_commands (x1 y1 x2 y2 angle max_seg : arg)
    (center : option point) (repeat : Z) (s : session H) :
  ready s ->
  (1 <= repeat)%Z ->
  (forall i, 0 < i < Z.to_nat repeat ->
     exists p0 p1 more,
       rotated [(x1, y1); (x2, y2)] center repeat i = Ok (p0 :: p1 :: more)) ->
  exists s',
    draw_arc_pattern x1 y1 x2 y2 angle max_seg center repeat s = (Ok tt, s')
    /\ List.length (sent s') = List.length (sent s) + Z.to_nat repeat * 3.
Proof.
  intros Hs Hrepeat Hrot. unfold draw_arc_pattern.
  destruct (Z.eqb_spec repeat 0) as [->|_]; [lia|].
  assert (sends (Z.to_nat repeat * 3)
            (for_each (seq 0 (Z.to_nat repeat))
               (arc_pattern_step x1 y1 x2 y2 angle max_seg center repeat)))
    as Hsends.
  { eapply sends_count; [|apply (sends_for_each (fun _ => 3))].
    - now rewrite list_sum_constant, length_seq.
    - intros i Hin. apply in_seq in Hin. unfold arc_pattern_step.
      destruct i as [|i]; cbn [Nat.eqb]; [apply sends_draw_arc|].
      destruct (Hrot (S i)) as (p0 & p1 & more & ->); [lia|].
      apply sends_after_lift. cbn [nth_error]. apply sends_draw_arc. }
  destruct (Hsends s Hs) as ([] & s' & E & _ & L). now exists s'.
Qed.

(** What a router submits for a command with arguments, and what it
    returns. *)
Lemma router_call (a : api) (p string : string) (args : list arg)
    (s : session H) (res : String.string) (e : engine) :
  doctype_prefix s = Some p ->
  mlab2femm (femm s) ((p ++ _add_mode_prefix a string) ++ _parse_args args)
    = (res, e) ->
  _call_femm_with_args a string args s
  = (decode res,
     submitted s ((p ++ _add_mode_prefix a string) ++ _parse_args args) e).
Proof.
  intros Hp Hreply. unfold _call_femm_with_args, call_femm_with_args.
  unfold bind, _add_doctype_prefix. rewrite Hp.
  now rewrite (call_femm_submission s _ _ _ false e eq_refl Hreply).
Qed.

(** X18. [block_integral] hands back the single value of a reply that holds
    one value, as its docstring says, having submitted the routine under
    the doctype prefix and the prefix of the post-processor. *)
Theorem block_integral_returns (p : string) (integral_type : arg)
    (s : session H) (c : ascii) (rest : string) (e : engine) (v w : value) :
  doctype_prefix s = Some p ->
  c <> "e"%char ->
  mlab2femm (femm s) ((p ++ "o_blockintegral") ++ _parse_args [integral_type])
    = (String c rest, e) ->
  eval (String c rest) = Ok v ->
  items v = Some [w] ->
  block_integral integral_type s
  = (Ok w, submitted s ((p ++ "o_blockintegral") ++ _parse_args [integral_type]) e).
Proof.
  intros Hp Hc Hreply Hv Hw. unfold block_integral.
  rewrite (router_call PostProcessorAPI p "blockintegral" _ s _ e Hp Hreply).
  now rewrite (decode_singleton c rest v w Hc Hv Hw).
Qed.

(** X19. [line_integral] hands back, as a sequence, the values of a reply that
    holds more than one. *)
Theorem line_integral_returns (p : string) (integral_type : arg)
    (s : session H) (c : ascii) (rest : string) (e : engine) (v : value)
    (l : list value) :
  doctype_prefix s = Some p ->
  c <> "e"%char ->
  mlab2femm (femm s) ((p ++ "o_lineintegral") ++ _parse_args [integral_type])
    = (String c rest, e) ->
  eval (String c rest) = Ok v ->
  items v = Some l ->
  1 < List.length l ->
  line_integral integral_type s
  = (Ok v, submitted s ((p ++ "o_lineintegral") ++ _parse_args [integral_type]) e).
Proof.
  intros Hp Hc Hreply Hv Hl Hk. unfold line_integral.
  rewrite (router_call PostProcessorAPI p "lineintegral" _ s _ e Hp Hreply).
  rewrite (decode_sequence c rest v l Hc Hv Hl); [reflexivity | lia].
Qed.

End Copies.

Section Texts.

Context `{H : Host}.

(** X20. A path that holds no backslash and no doubled slash is returned as it
    is. *)
Theorem fix_path_normalised (path : string) :
  has_char backslash path = false ->
  contains "//" path = false ->
  _fix_path path = path.
Proof.
  induction path as [| |c d r IHr IHdr] using string_pair_ind.
  - reflexivity.
  - intros Hb _. rewrite fix_path_one. cbn [has_char] in Hb.
    apply orb_false_iff in Hb as [Hc _]. unfold to_slash. now rewrite Hc.
  - intros Hb Hs. rewrite fix_path_two.
    cbn [has_char] in Hb. apply orb_false_iff in Hb as [Hc Hb].
    rewrite contains_cons in Hs. apply orb_false_iff in Hs as [Hcd Hs].
    rewrite prefix_cons, prefix_nil, andb_true_r in Hcd.
    assert (is_separator c && is_separator d = false) as ->.
    { unfold is_separator. rewrite Hc, orb_false_r.
      cbn [has_char] in Hb. apply orb_false_iff in Hb as [Hd _].
      rewrite Hd, orb_false_r, (Ascii.eqb_sym c), (Ascii.eqb_sym d). exact Hcd. }
    unfold to_slash. rewrite Hc. f_equal. apply IHdr; assumption.
Qed.

(** X21. The normalised path is never longer than the given one. *)
Theorem fix_path_length (path : string) :
  String.length (_fix_path path) <= String.length path.
Proof.
  induction path as [| |c d r IHr IHdr] using string_pair_ind.
  - reflexivity.
  - rewrite fix_path_one. reflexivity.
  - rewrite fix_path_two.
    destruct (is_separator c && is_separator d); cbn [String.length] in *; lia.
Qed.

(** The reader of the literal grammar undoes [_parse_args] on plain
    arguments. *)
Lemma parse_parse_args (args : list arg) :
  forallb plain args = true ->
  Literal.parse (_parse_args args) = Some args.
Proof. intros Hplain. apply parse_readable. now apply plain_readable. Qed.

(** X22. Two lists of whole numbers and of texts free of double quotes that
    [_parse_args] encodes to the same text are the same list. *)
Theorem parse_args_injective (args args' : list arg) :
  forallb plain args = true ->
  forallb plain args' = true ->
  _parse_args args = _parse_args args' ->
  args = args'.
Proof.
  intros Hargs Hargs' Heq.
  pose proof (parse_parse_args args Hargs) as Hparse.
  rewrite Heq, (parse_parse_args args' Hargs') in Hparse.
  now injection Hparse.
Qed.

(** X23. A double quote inside a text is not escaped: one text that holds a
    quote, a comma, a blank and a quote is encoded as the two texts on
    either side are. *)
Theorem parse_args_quote_collision (s t : string) :
  _parse_args [AStr (s ++ String dquote (", " ++ String dquote t))]
  = _parse_args [AStr s; AStr t].
Proof.
  unfold _parse_args. cbn [map String.concat render]. unfold quote.
  f_equal. rewrite !append_assoc. cbn [append]. rewrite !append_assoc.
  reflexivity.
Qed.

End Texts.

(** * Runs on the scripted engine *)

(** The error detail is the reply as a whole, not what follows its first
    character. *)
Lemma error_detail_keeps_sentinel :
  let s := scripted_session ["error: no document"] in
  mlab2femm (femm s) "mi_analyze(1)" = (String "e" "rror: no document", [])
  /\ fst (call_femm "mi_analyze(1)" false s)
       = Raise (Exception "error: no document")
  /\ fst (call_femm "mi_analyze(1)" false s)
       <> Raise (Exception "rror: no document").
Proof.
  repeat split; try reflexivity. vm_compute. discriminate.
Qed.

Lemma call_femm_error_reply_witness :
  call_femm "mi_analyze(1)" false (scripted_session ["error: no document"])
  = (Raise (Exception "error: no document"),
     {| femm := []; sent := ["mi_analyze(1)"]; doctype_prefix := None |}).
Proof.
  apply (call_femm_error_reply (scripted_session ["error: no document"])
           "mi_analyze(1)" "mi_analyze(1)" "rror: no document" false []);
    reflexivity.
Defined.

Lemma call_femm_decodes_witness :
  call_femm "mo_numnodes()" false (scripted_session [EmptyString])
    = (Ok (VList []), {| femm := []; sent := ["mo_numnodes()"]; doctype_prefix := None |})
  /\ call_femm "mo_numnodes()" false (scripted_session ["[7]"])
    = (Ok (VInt 7), {| femm := []; sent := ["mo_numnodes()"]; doctype_prefix := None |})
  /\ call_femm "mo_getnode(1)" false (scripted_session ["[1, 2]"])
    = (Ok (VList [VInt 1; VInt 2]),
       {| femm := []; sent := ["mo_getnode(1)"]; doctype_prefix := None |}).
Proof.
  split; [|split].
  - apply (call_femm_decodes (scripted_session [EmptyString]) "mo_numnodes()"
             "mo_numnodes()" EmptyString false []); reflexivity.
  - apply (call_femm_decodes (scripted_session ["[7]"]) "mo_numnodes()"
             "mo_numnodes()" "[7]" false [])
      with (v := VList [VInt 7]);
      [reflexivity | reflexivity | reflexivity | discriminate
      | reflexivity | reflexivity].
  - apply (call_femm_decodes (scripted_session ["[1, 2]"]) "mo_getnode(1)"
             "mo_getnode(1)" "[1, 2]" false [])
      with (v := VList [VInt 1; VInt 2]) (l := [VInt 1; VInt 2]);
      [reflexivity | reflexivity | reflexivity | discriminate
      | reflexivity | reflexivity | simpl; lia].
Defined.

Lemma scripted_quiet : quiet (H := scripted) [].
Proof.
  intros commands c. induction commands as [|c' commands IH]; [reflexivity|].
  exact IH.
Qed.

Lemma draw_polyline_pattern_shapes_witness :
  let points := [(AInt 0, AInt 0); (AInt 1, AInt 0)] in
  let s : session scripted :=
    {| femm := []; sent := []; doctype_prefix := Some "m" |} in
  exists shapes s',
    draw_polyline_pattern points (Some (AInt 0, AInt 0)) 3 s = (Ok shapes, s')
    /\ List.length shapes = 3
    /\ nth_error shapes 0 = Some points.
Proof.
  intros points s.
  destruct (draw_polyline_pattern_shapes points (Some (AInt 0, AInt 0)) 3 s)
    as (Hret & Hruns & _); [lia|].
  destruct Hruns as (shapes & s' & E).
  - split; [exists "m"; reflexivity | apply scripted_quiet].
  - intros i _. eexists. reflexivity.
  - exists shapes, s'. destruct (Hret shapes s' E) as (Hlen & Hhead & _).
    repeat split; assumption.
Defined.



Lemma no_mode_no_command_witness :
  _call_femm_with_args PreprocessorAPI "addnode" [AInt 1; AInt 2]
    (scripted_session ["[7]"])
  = (Raise TypeError, scripted_session ["[7]"]).
Proof.
  apply (no_mode_no_command (scripted_session ["[7]"]) PreprocessorAPI "addnode"
           [AInt 1; AInt 2]).
  reflexivity.
Defined.

Lemma scripted_ready_ready : ready scripted_ready.
Proof. split; [exists "m"; reflexivity | apply scripted_quiet]. Qed.

Lemma set_mode_unknown_key_witness :
  set_mode (KInt 4) (scripted_session [])
  = (Raise (KeyError (KInt 4)), scripted_session []).
Proof.
  apply (set_mode_unknown_key (KInt 4) (scripted_session [])).
  intros m. destruct m; split; discriminate.
Defined.

Lemma set_mode_success_witness :
  let s' : session scripted :=
    {| femm := []; sent := []; doctype_prefix := Some "h" |} in
  exists m, (KStr "heat" = KStr (name m) \/ KStr "heat" = KInt (ordinal m))
            /\ mode s' = (Ok (name m), s').
Proof.
  intros s'.
  destruct (set_mode_success (H := scripted) (KStr "heat") scripted_ready s' eq_refl)
    as (m & Hk & Hmode & _).
  exists m. split; [exact Hk | exact Hmode].
Defined.

Lemma new_document_unknown_name_witness :
  new_document (KStr "thermal") (scripted_session [])
  = (Raise (KeyError (KStr "thermal")), scripted_session []).
Proof.
  apply (new_document_unknown_name "thermal" (scripted_session [])).
  intros m. destruct m; discriminate.
Defined.

Lemma new_document_engine_error_witness :
  new_document (KInt 0) (scripted_session ["error: no licence"])
  = (Raise (Exception "error: no licence"),
     {| femm := []; sent := ["newdocument(0)"]; doctype_prefix := None |}).
Proof.
  apply (new_document_engine_error (H := scripted) 0 (scripted_session ["error: no licence"])
           "rror: no licence" []).
  reflexivity.
Defined.

Lemma new_document_by_ordinal_witness :
  exists s',
    new_document (KInt 2) (scripted_session []) = (Ok tt, s')
    /\ mode s' = (Ok "heat", s').
Proof.
  destruct (new_document_by_ordinal (H := scripted) heat (scripted_session []) EmptyString []
              (VList []) eq_refl eq_refl) as (s' & Hrun & Hmode & _).
  exists s'. split; [exact Hrun | exact Hmode].
Defined.

Lemma new_document_bad_ordinal_witness :
  new_document (KInt 7) (scripted_session [])
  = (Raise (KeyError (KInt 7)),
     {| femm := []; sent := ["newdocument(7)"]; doctype_prefix := None |}).
Proof.
  apply (new_document_bad_ordinal (H := scripted) 7 (scripted_session []) EmptyString []
           (VList [])); [lia | reflexivity | reflexivity].
Defined.

Lemma draw_polyline_commands_witness :
  exists s',
    draw_polyline [(AInt 0, AInt 0); (AInt 1, AInt 0); (AInt 1, AInt 1)]
      scripted_ready = (Ok tt, s')
    /\ List.length (sent s') = 9.
Proof.
  destruct (draw_polyline_commands
              [(AInt 0, AInt 0); (AInt 1, AInt 0); (AInt 1, AInt 1)]
              scripted_ready scripted_ready_ready) as (s' & Hrun & Hlen).
  exists s'. split; [exact Hrun | exact Hlen].
Defined.

Lemma draw_polygon_closes_witness :
  draw_polygon [] scripted_ready = (Raise IndexError, scripted_ready)
  /\ draw_polygon [(AInt 0, AInt 0); (AInt 1, AInt 0); (AInt 1, AInt 1)]
       scripted_ready
     = bind (draw_polyline [(AInt 0, AInt 0); (AInt 1, AInt 0); (AInt 1, AInt 1)])
         (fun _ => draw_line (AInt 0) (AInt 0) (AInt 1) (AInt 1)) scripted_ready.
Proof.
  split.
  - apply (draw_polygon_closes [] scripted_ready). reflexivity.
  - apply (draw_polygon_closes
             [(AInt 0, AInt 0); (AInt 1, AInt 0); (AInt 1, AInt 1)] scripted_ready)
      with (first := (AInt 0, AInt 0))
           (rest := [(AInt 1, AInt 0); (AInt 1, AInt 1)]).
    reflexivity.
Defined.

Lemma draw_polygon_commands_witness :
  exists s',
    draw_polygon [(AInt 0, AInt 0); (AInt 1, AInt 0); (AInt 1, AInt 1)]
      scripted_ready = (Ok tt, s')
    /\ List.length (sent s') = 12.
Proof.
  destruct (draw_polygon_commands
              [(AInt 0, AInt 0); (AInt 1, AInt 0); (AInt 1, AInt 1)]
              scripted_ready scripted_ready_ready) as (s' & Hrun & Hlen);
    [discriminate|].
  exists s'. split; [exact Hrun | exact Hlen].
Defined.

Lemma draw_polyline_stops_at_error_witness :
  draw_polyline [(AInt 0, AInt 0); (AInt 1, AInt 0)]
    (scripted_in_mode ["error: no document"])
  = (Raise (Exception "error: no document"),
     {| femm := []; sent := ["mi_addnode(0, 0)"]; doctype_prefix := Some "m" |}).
Proof.
  apply (draw_polyline_stops_at_error (H := scripted) "m" (AInt 0, AInt 0)
           [(AInt 1, AInt 0)]
           (scripted_in_mode ["error: no document"])
           "rror: no document" []); reflexivity.
Defined.

Lemma draw_polyline_pattern_copies_witness :
  exists shapes s',
    draw_polyline_pattern recorded_points (Some (AInt 0, AInt 0)) 4 python_ready
    = (Ok shapes, s')
    /\ nth_error shapes 2
       = Some [(AFloat (-1)%float, AFloat (-1)%float);
               (AFloat (-2)%float, AFloat (-1)%float)]
    /\ nth_error (sent s') 10 = Some "mi_addnode(-1.0, -1.0)".
Proof.
  pose (run := draw_polyline_pattern recorded_points (Some (AInt 0, AInt 0)) 4
                 python_ready).
  assert (fst run = Ok [recorded_points;
                        [(AFloat (-1)%float, AFloat 1%float);
                         (AFloat (-1)%float, AFloat 2%float)];
                        [(AFloat (-1)%float, AFloat (-1)%float);
                         (AFloat (-2)%float, AFloat (-1)%float)];
                        [(AFloat 1%float, AFloat (-1)%float);
                         (AFloat 1%float, AFloat (-2)%float)]]) as Hfst
    by (vm_compute; reflexivity).
  pose proof (surjective_pairing run) as Hrun. rewrite Hfst in Hrun.
  eexists _, (snd run). split; [exact Hrun|].
  destruct (draw_polyline_pattern_copies (H := python) recorded_points
              (Some (AInt 0, AInt 0)) 4 python_ready (snd run) _ 2 Hrun)
    as (ps & Hnth & Hrot); [simpl; lia|].
  split; [|vm_compute; reflexivity].
  vm_compute in Hrot. injection Hrot as <-. exact Hnth.
Defined.

Lemma draw_polyline_pattern_rotation_fails_witness :
  fst (draw_polyline_pattern (H := centred) [(AInt 0, AInt 0)] None 2
         centred_ready)
  = Raise TypeError.
Proof.
  rewrite (draw_polyline_pattern_rotation_fails (H := centred)
             [(AInt 0, AInt 0)] None 2 TypeError); [reflexivity | lia | reflexivity].
Defined.

Lemma draw_polyline_pattern_commands_witness :
  exists shapes s',
    draw_polyline_pattern [(AInt 0, AInt 0); (AInt 1, AInt 0)]
      (Some (AInt 0, AInt 0)) 3 scripted_ready = (Ok shapes, s')
    /\ List.length (sent s') = 15.
Proof.
  destruct (draw_polyline_pattern_commands [(AInt 0, AInt 0); (AInt 1, AInt 0)]
              (Some (AInt 0, AInt 0)) 3 scripted_ready scripted_ready_ready)
    as (shapes & s' & Hrun & Hlen); [lia | |].
  - intros i _. eexists. split; reflexivity.
  - exists shapes, s'. split; [exact Hrun | exact Hlen].
Defined.

Lemma patterns_without_copies_witness :
  draw_polyline_pattern [(AInt 0, AInt 0)] None (-2) scripted_ready
  = (Ok [[(AInt 0, AInt 0)]], scripted_ready).
Proof.
  apply (patterns_without_copies [(AInt 0, AInt 0)] (AInt 0) (AInt 0) (AInt 1)
           (AInt 1) (AInt 90) (AInt 1) None (-2) scripted_ready).
  lia.
Defined.

Lemma draw_arc_pattern_commands_witness :
  exists s',
    draw_arc_pattern (AInt 1) (AInt 0) (AInt 0) (AInt 1) (AInt 90) (AInt 1)
      (Some (AInt 0, AInt 0)) 4 scripted_ready = (Ok tt, s')
    /\ List.length (sent s') = 12.
Proof.
  destruct (draw_arc_pattern_commands (AInt 1) (AInt 0) (AInt 0) (AInt 1)
              (AInt 90) (AInt 1) (Some (AInt 0, AInt 0)) 4 scripted_ready
              scripted_ready_ready) as (s' & Hrun & Hlen); [lia | |].
  - intros i _. do 3 eexists. reflexivity.
  - exists s'. split; [exact Hrun | exact Hlen].
Defined.

Lemma block_integral_returns_witness :
  block_integral (AInt 10)
    (scripted_in_mode ["[7]"])
  = (Ok (VInt 7),
     {| femm := []; sent := ["mo_blockintegral(10)"]; doctype_prefix := Some "m" |}).
Proof.
  apply (block_integral_returns (H := scripted) "m" (AInt 10)
           (scripted_in_mode ["[7]"])
           "[" "7]" [] (VList [VInt 7]) (VInt 7));
    [reflexivity | discriminate | reflexivity | reflexivity | reflexivity].
Defined.

Lemma line_integral_returns_witness :
  line_integral (AInt 3)
    (scripted_in_mode ["[1, 2]"])
  = (Ok (VList [VInt 1; VInt 2]),
     {| femm := []; sent := ["mo_lineintegral(3)"]; doctype_prefix := Some "m" |}).
Proof.
  apply (line_integral_returns (H := scripted) "m" (AInt 3)
           (scripted_in_mode ["[1, 2]"])
           "[" "1, 2]" [] (VList [VInt 1; VInt 2]) [VInt 1; VInt 2]);
    [reflexivity | discriminate | reflexivity | reflexivity | reflexivity
    | simpl; lia].
Defined.

Lemma fix_path_normalised_witness : _fix_path "C:/femm/work" = "C:/femm/work".
Proof. apply (fix_path_normalised "C:/femm/work"); reflexivity. Defined.

Lemma parse_args_injective_witness :
  [AInt 3; AStr "air"] = [AInt 3; AStr "air"].
Proof.
  apply (parse_args_injective (H := scripted) [AInt 3; AStr "air"]
           [AInt 3; AStr "air"]); reflexivity.
Defined.
